(** * FixRes preprocessing pipeline (examples/vision/ipynb/fixres.ipynb)

    A shallow embedding of the data-preprocessing cell of the FixRes
    notebook: the module constants, [preprocess_initial] with its closure
    [_pp], [preprocess_finetune] and [make_dataset], over an interface for
    the TensorFlow operations the cell calls. *)

From Stdlib Require Import ZArith QArith Qround Bool Lia.
From Stdlib Require Import Floats.SpecFloat.
From stdpp Require Import base list strings.

Open Scope Z_scope.

(** ** Exceptions and results *)

Inductive exn : Type :=
| ValueError (image_size : Z)   (* f"{image_size} resolution is not supported." *)
| ShapeError                    (* ValueError of set_shape: incompatible shapes *)
| InvalidArgumentError          (* raised by a TensorFlow kernel *)
| UnboundError                  (* a name bound to no object *)
| OverflowError                 (* int() of an infinity or a NaN *)
| ZeroDivisionError.            (* division by zero *)

Inductive result (A : Type) : Type :=
| Ok (a : A)
| Raise (e : exn).
Arguments Ok {A} a.
Arguments Raise {A} e.

(** ** Python numbers

    [int / int] and [float * int] work on binary64 floats; [int(x)]
    truncates toward zero. *)

Module Py.
Definition prec : Z := 53.
Definition emax : Z := 1024.
Definition float := spec_float.

Definition float_of_int (n : Z) : float := binary_normalize prec emax n 0 false.

(* a / b on two ints below 2^53: the correctly rounded quotient *)
Definition truediv (a b : Z) : result float :=
  if b =? 0 then Raise ZeroDivisionError
  else Ok (SFdiv prec emax (float_of_int a) (float_of_int b)).

(* x * n, the int converted first *)
Definition mul_int (x : float) (n : Z) : float :=
  SFmul prec emax x (float_of_int n).

Definition int (x : float) : result Z :=
  match x with
  | S754_zero _ => Ok 0
  | S754_finite s m e => Ok (cond_Zopp s (Z.shiftl (Zpos m) e))
  | S754_infinity _ | S754_nan => Raise OverflowError
  end.
End Py.

(** ** Module constants of the preprocessing cell *)

Definition batch_size : Z := 128.
Definition auto : Z := -1.                     (* tf.data.AUTOTUNE *)
Definition smaller_size : Z := 128.
Definition bigger_size : Z := 224.

(* int((bigger_size / smaller_size) * bigger_size), as Python evaluates it *)
Definition size_for_resizing_expr : result Z :=
  match Py.truediv bigger_size smaller_size with
  | Ok ratio => Py.int (Py.mul_int ratio bigger_size)
  | Raise e => Raise e
  end.

Definition size_for_resizing : Z :=
  match size_for_resizing_expr with
  | Ok n => n
  | Raise _ => 0
  end.

(** ** A state and exception monad

    Python statements run in sequence over a state and may raise; a raised
    exception keeps the state reached so far. *)

Definition M (S A : Type) : Type := S -> result A * S.

Definition ret {S A : Type} (a : A) : M S A := fun s => (Ok a, s).

Definition raise {S A : Type} (e : exn) : M S A := fun s => (Raise e, s).

Definition bind {S A B : Type} (m : M S A) (k : A -> M S B) : M S B :=
  fun s =>
    match m s with
    | (Ok a, s') => k a s'
    | (Raise e, s') => (Raise e, s')
    end.

Definition lift {S A : Type} (r : result A) : M S A := fun s => (r, s).

Notation "'let!' x ':=' m 'in' k" := (bind m (fun x => k))
  (at level 10, x name, m at level 100, k at level 200).
Notation "'let!' ' p ':=' m 'in' k" := (bind m (fun x => match x with p => k end))
  (at level 10, p strict pattern, m at level 100, k at level 200).

(** ** Shapes *)

(* One axis of tf.slice: begin within the axis, size -1 for "up to the end". *)
Definition slice_dim (d b s : Z) : option Z :=
  if (0 <=? b) && (b <=? d) then
    if s =? -1 then Some (d - b)
    else if (0 <=? s) && (b + s <=? d) then Some s
    else None
  else None.

Fixpoint slice_shape (dims begin size : list Z) : option (list Z) :=
  match dims, begin, size with
  | [], [], [] => Some []
  | d :: dims', b :: begin', s :: size' =>
      match slice_dim d b s, slice_shape dims' begin' size' with
      | Some x, Some xs => Some (x :: xs)
      | _, _ => None
      end
  | _, _, _ => None
  end.

(* TensorShape.merge_with, axis by axis *)
Definition merge_dim (a b : option Z) : result (option Z) :=
  match a, b with
  | None, _ => Ok b
  | Some _, None => Ok a
  | Some x, Some y => if x =? y then Ok a else Raise ShapeError
  end.

Fixpoint merge_shape (a b : list (option Z)) : result (list (option Z)) :=
  match a, b with
  | [], [] => Ok []
  | x :: a', y :: b' =>
      match merge_dim x y, merge_shape a' b' with
      | Ok d, Ok ds => Ok (d :: ds)
      | Raise e, _ => Raise e
      | _, Raise e => Raise e
      end
  | _, _ => Raise ShapeError
  end.

Definition Qltb (x y : Q) : bool := negb (Qle_bool y x).

(* a normalised bounding box [y_min, x_min, y_max, x_max] *)
Definition BBox : Type := (Q * Q * Q * Q)%type.

(** ** The TensorFlow operations used by the cell

    Tensors, the random generator and the kernels are TensorFlow's; the
    cell only composes them. The interface lists each operation with the
    shape contract its documentation gives. *)

Class TensorFlow : Type := {
  Tensor : Type;
  Rng : Type;
  (* tf.shape(t) *)
  shape : Tensor -> list Z;
  (* tf.image.resize(image, size), bilinear *)
  resize : Tensor -> list Z -> result Tensor;
  (* tf.slice(t, begin, size) *)
  slice : Tensor -> list Z -> list Z -> result Tensor;
  (* tf.image.flip_left_right(image) *)
  flip_left_right : Tensor -> Tensor;
  (* t[None, ...] *)
  expand_dims : Tensor -> Tensor;
  (* t[0] *)
  getitem0 : Tensor -> result Tensor;
  (* stacking the elements of a batch *)
  stack : list Tensor -> result Tensor;
  (* tf.random.uniform([], 0, 1.0) *)
  random_uniform : Rng -> Q * Rng;
  (* a uniform index below n, as the shuffle buffer draws it *)
  random_index : nat -> Rng -> nat * Rng;
  (* tf.image.sample_distorted_bounding_box(image_size, bounding_boxes,
       area_range, min_object_covered, use_image_if_no_bounding_boxes) *)
  sample_distorted_bounding_box :
    list Z -> list BBox -> Q * Q -> Q -> bool -> Rng ->
    result (list Z * list Z * BBox) * Rng;

  resize_ok : forall t h w c h' w',
    shape t = [h; w; c] -> 0 < h -> 0 < w -> 0 < c -> 0 < h' -> 0 < w' ->
    exists t', resize t [h'; w'] = Ok t' /\ shape t' = [h'; w'; c];
  slice_ok : forall t begin size sh,
    slice_shape (shape t) begin size = Some sh ->
    exists t', slice t begin size = Ok t' /\ shape t' = sh;
  flip_left_right_shape : forall t, shape (flip_left_right t) = shape t;
  expand_dims_shape : forall t, shape (expand_dims t) = 1 :: shape t;
  getitem0_ok : forall t n sh,
    shape t = n :: sh -> 0 < n ->
    exists t', getitem0 t = Ok t' /\ shape t' = sh;
  (* slicing a batch of one image on its spatial axes slices the image *)
  slice_expand_dims : forall t begin size,
    match slice (expand_dims t) (0 :: begin) (-1 :: size) with
    | Ok t' => getitem0 t'
    | Raise e => Raise e
    end = slice t begin size;
  stack_ok : forall ts sh,
    ts <> [] -> Forall (fun t => shape t = sh) ts ->
    exists t, stack ts = Ok t /\ shape t = Z.of_nat (length ts) :: sh;
  random_uniform_range : forall g,
    (0 <= fst (random_uniform g))%Q /\ (fst (random_uniform g) < 1)%Q;
  random_index_range : forall n g,
    (0 < n)%nat -> (fst (random_index n g) < n)%nat;
  sample_distorted_bounding_box_ok : forall h w c lo hi moc g,
    0 < h -> 0 < w ->
    (0 < lo)%Q -> (lo <= hi)%Q -> (hi <= 1)%Q -> (0 <= moc)%Q -> (moc <= 1)%Q ->
    exists y x bh bw bb,
      fst (sample_distorted_bounding_box [h; w; c] [] (lo, hi) moc true g)
        = Ok ([y; x; 0], [bh; bw; -1], bb) /\
      0 <= y /\ 0 <= x /\ 0 < bh /\ 0 < bw /\ y + bh <= h /\ x + bw <= w
}.

Section FixRes.

Context `{TF : TensorFlow}.

(** ** Tensor objects

    A Python name is bound to a tensor object: the value TensorFlow computes
    and the static shape attached to it, which [set_shape] refines in place.
    Every operation returns a new object. *)

Record TensorObj : Type := {
  value : Tensor;
  static_shape : list (option Z)
}.

Definition addr : Type := nat.

Record PpState : Type := {
  heap : list TensorObj;
  rng : Rng
}.

Definition Label : Type := Z.

Definition new (t : Tensor) (st : list (option Z)) : M PpState addr :=
  fun s =>
    (Ok (length (heap s)),
     {| heap := heap s ++ [{| value := t; static_shape := st |}]; rng := rng s |}).

Definition deref (a : addr) : M PpState TensorObj :=
  fun s =>
    match heap s !! a with
    | Some o => (Ok o, s)
    | None => (Raise UnboundError, s)
    end.

Definition draw {A : Type} (f : Rng -> A * Rng) : M PpState A :=
  fun s => let '(a, g) := f (rng s) in (Ok a, {| heap := heap s; rng := g |}).

(* tf.shape(image) *)
Definition tf_shape (image : addr) : M PpState (list Z) :=
  let! o := deref image in ret (shape (value o)).

(* image.shape[-1] *)
Definition shape_last (image : addr) : M PpState (option Z) :=
  let! o := deref image in
  match last (static_shape o) with
  | Some d => ret d
  | None => raise ShapeError
  end.

Definition tf_image_sample_distorted_bounding_box
    (image_size : list Z) (bounding_boxes : list BBox) (area_range : Q * Q)
    (min_object_covered : Q) (use_image_if_no_bounding_boxes : bool)
  : M PpState (list Z * list Z * BBox) :=
  fun s =>
    let '(r, g) :=
      sample_distorted_bounding_box image_size bounding_boxes area_range
        min_object_covered use_image_if_no_bounding_boxes (rng s) in
    (r, {| heap := heap s; rng := g |}).

(* tf.slice(image, begin, size): begin and size are run-time values, so
   nothing is known statically about the result but its rank *)
Definition tf_slice (image : addr) (begin size : list Z) : M PpState addr :=
  let! o := deref image in
  let! t := lift (slice (value o) begin size) in
  new t (map (fun _ => None) (static_shape o)).

(* image.set_shape(sh): the one operation that writes to an existing object *)
Definition set_shape (image : addr) (sh : list (option Z)) : M PpState unit :=
  let! o := deref image in
  let! st := lift (merge_shape (static_shape o) sh) in
  fun s =>
    (Ok tt,
     {| heap := <[image := {| value := value o; static_shape := st |}]> (heap s);
        rng := rng s |}).

(* tf.image.resize(image, size) *)
Definition tf_image_resize (image : addr) (size : list Z) : M PpState addr :=
  let! o := deref image in
  let! t := lift (resize (value o) size) in
  new t (map Some size ++ drop 2 (static_shape o)).

(* tf.image.random_flip_left_right(image): draws u uniformly in [0, 1) and
   mirrors the image when u < 0.5 *)
Definition tf_image_random_flip_left_right (image : addr) : M PpState addr :=
  let! o := deref image in
  let! u := draw random_uniform in
  new (if Qltb u (1 # 2) then flip_left_right (value o) else value o)
      (static_shape o).

(* image[None, ...] *)
Definition getitem_newaxis (image : addr) : M PpState addr :=
  let! o := deref image in
  new (expand_dims (value o)) (Some 1 :: static_shape o).

(* x[0] *)
Definition getitem_0 (x : addr) : M PpState addr :=
  let! o := deref x in
  let! t := lift (getitem0 (value o)) in
  new t (tail (static_shape o)).

(* layers.CenterCrop(height, width) called on a batch of images at least as
   large as the target: the crop starts at half the difference on each
   spatial axis. Two things are left coarse, neither of which the cell
   reaches, since it only crops 392 x 392 batches and reads no static
   shape afterwards: on a smaller input this layer raises, as the Keras
   release of the notebook's date does, where later releases resize; and
   the static shape of the result is the unknown one of [tf_slice], where
   the layer knows height and width. *)
Definition CenterCrop (height width : Z) (inputs : addr) : M PpState addr :=
  let! inputs_shape := tf_shape inputs in
  match inputs_shape with
  | [_; img_hd; img_wd; _] =>
      let img_hd_diff := img_hd - height in
      let img_wd_diff := img_wd - width in
      if (img_hd_diff <? 0) || (img_wd_diff <? 0) then raise InvalidArgumentError
      else
        let bbox_h_start := Z.quot img_hd_diff 2 in
        let bbox_w_start := Z.quot img_wd_diff 2 in
        tf_slice inputs [0; bbox_h_start; bbox_w_start; 0] [-1; height; width; -1]
  | _ => raise InvalidArgumentError
  end.

Definition central_crop_layer : addr -> M PpState addr :=
  CenterCrop bigger_size bigger_size.

(** ** The two preprocessing functions *)

Definition _pp (image_size : Z) (image : addr) (label : Label) (train : bool)
  : M PpState (addr * Label) :=
  if train then
    let! channels := shape_last image in
    let! image_shape := tf_shape image in
    let! '(begin, size, _) :=
      tf_image_sample_distorted_bounding_box
        image_shape [] ((5 # 100)%Q, 1%Q) 0%Q true in
    let! image := tf_slice image begin size in
    let! _ := set_shape image [None; None; channels] in
    let! image := tf_image_resize image [image_size; image_size] in
    let! image := tf_image_random_flip_left_right image in
    ret (image, label)
  else
    let! image := tf_image_resize image [image_size; image_size] in
    ret (image, label).

(* the outer [train] is shadowed by the parameter of [_pp] *)
Definition preprocess_initial (train : bool) (image_size : Z)
  : addr -> Label -> bool -> M PpState (addr * Label) :=
  _pp image_size.

Definition preprocess_finetune (image : addr) (label : Label) (train : bool)
  : M PpState (addr * Label) :=
  let! image := tf_image_resize image [size_for_resizing; size_for_resizing] in
  let! image :=
    (if train then tf_image_random_flip_left_right image else ret image) in
  let! x := getitem_newaxis image in
  let! x := central_crop_layer x in
  let! image := getitem_0 x in
  ret (image, label).

(** ** The strategies as the specification words them

    Functions of the image value and the random generator alone, to compare
    [preprocess_initial] and [preprocess_finetune] with. *)

Definition draw_rng {A : Type} (f : Rng -> A * Rng) : M Rng A :=
  fun g => let '(a, g') := f g in (Ok a, g').

(* horizontal flip with probability 0.5 *)
Definition random_flip (t : Tensor) : M Rng Tensor :=
  let! u := draw_rng random_uniform in
  ret (if Qltb u (1 # 2) then flip_left_right t else t).

(* deterministic crop of size height x width from the centre of an image *)
Definition center_crop (height width : Z) (t : Tensor) : result Tensor :=
  match shape t with
  | [h; w; _] =>
      slice t [Z.quot (h - height) 2; Z.quot (w - width) 2; 0] [height; width; -1]
  | _ => Raise InvalidArgumentError
  end.

(* initial strategy: random sub-region by area fraction in [0.05, 1.0], with
   the whole image as fallback, resized, then flipped; plain resize when
   not training *)
Definition initial_strategy (resolution : Z) (train : bool) (t : Tensor)
  : M Rng Tensor :=
  if train then
    let! '(begin, size, _) :=
      sample_distorted_bounding_box (shape t) [] ((5 # 100)%Q, 1%Q) 0%Q true in
    let! region := lift (slice t begin size) in
    let! resized := lift (resize region [resolution; resolution]) in
    random_flip resized
  else lift (resize t [resolution; resolution]).

(* fine-tune strategy: resize to 392 x 392, flip when training, center crop
   to 224 x 224 *)
Definition finetune_strategy (train : bool) (t : Tensor) : M Rng Tensor :=
  let! resized := lift (resize t [392; 392]) in
  let! flipped := (if train then random_flip resized else ret resized) in
  lift (center_crop 224 224 flipped).

(* area of a bh x bw box as a fraction of the area of an h x w image *)
Definition area_fraction (bh bw h w : Z) : Q :=
  (inject_Z (bh * bw) / inject_Z (h * w))%Q.

(* What the documentation of tf.image.sample_distorted_bounding_box says of
   area_range and max_attempts: the cropped area contains a fraction of the
   image within the range; after max_attempts failures the entire image is
   returned. *)
Definition sampler_respects_area_range : Prop :=
  forall h w c lo hi moc g y x bh bw bb g',
    0 < h -> 0 < w ->
    sample_distorted_bounding_box [h; w; c] [] (lo, hi) moc true g
      = (Ok ([y; x; 0], [bh; bw; -1], bb), g') ->
    (y = 0 /\ x = 0 /\ bh = h /\ bw = w) \/
    ((lo <= area_fraction bh bw h w)%Q /\ (area_fraction bh bw h w <= hi)%Q).

(* a non-empty image of height h, width w and c channels, of statically
   known rank *)
Definition image_object (o : TensorObj) (h w c : Z) : Prop :=
  shape (value o) = [h; w; c] /\ 0 < h /\ 0 < w /\ 0 < c /\
  length (static_shape o) = 3%nat.

(** ** Datasets

    A [tf.data.Dataset] describes a stream; nothing is computed until it is
    iterated. An element is an image object with its label. Each method
    call creates one dataset operation, recorded in the order of creation. *)

Definition Example : Type := (TensorObj * Label)%type.

Definition PreprocessFn : Type := addr -> Label -> M PpState (addr * Label).

Inductive Dataset : Type :=
| Source (examples : list Example)
| Shuffle (buffer_size : Z) (d : Dataset)
| Map (f : PreprocessFn) (num_parallel_calls : Z) (d : Dataset).

Inductive BatchedDataset : Type :=
| Batch (n : Z) (d : Dataset)
| Prefetch (buffer_size : Z) (d : BatchedDataset).

Inductive DatasetOp : Type :=
| ShuffleOp (buffer_size : Z)
| MapOp (num_parallel_calls : Z)
| BatchOp (n : Z)
| PrefetchOp (buffer_size : Z).

Definition dataset_shuffle (d : Dataset) (buffer_size : Z)
  : M (list DatasetOp) Dataset :=
  fun ops => (Ok (Shuffle buffer_size d), ops ++ [ShuffleOp buffer_size]).

Definition dataset_map (d : Dataset) (f : PreprocessFn) (num_parallel_calls : Z)
  : M (list DatasetOp) Dataset :=
  fun ops => (Ok (Map f num_parallel_calls d), ops ++ [MapOp num_parallel_calls]).

Definition dataset_batch (d : Dataset) (n : Z)
  : M (list DatasetOp) BatchedDataset :=
  fun ops => (Ok (Batch n d), ops ++ [BatchOp n]).

Definition dataset_prefetch (d : BatchedDataset) (buffer_size : Z)
  : M (list DatasetOp) BatchedDataset :=
  fun ops => (Ok (Prefetch buffer_size d), ops ++ [PrefetchOp buffer_size]).

(** ** make_dataset

    The notebook calls it with image_size, fixres and num_parallel_calls
    left to their defaults [smaller_size], [True] and [auto] or given by
    keyword; here every argument is explicit. *)

(* the preprocessing function [make_dataset] binds to [preprocess_func] *)
Definition preprocess_func (train : bool) (image_size : Z) (fixres : bool)
  : addr -> Label -> bool -> M PpState (addr * Label) :=
  if image_size =? smaller_size then preprocess_initial train image_size
  else if negb fixres && (image_size =? bigger_size) then
    preprocess_initial train image_size
  else preprocess_finetune.

Definition make_dataset (dataset : Dataset) (train : bool) (image_size : Z)
    (fixres : bool) (num_parallel_calls : Z)
  : M (list DatasetOp) BatchedDataset :=
  if negb (existsb (Z.eqb image_size) [smaller_size; bigger_size]) then
    raise (ValueError image_size)
  else
    let preprocess_func := preprocess_func train image_size fixres in
    let! dataset :=
      (if train then dataset_shuffle dataset (batch_size * 10) else ret dataset) in
    let! dataset :=
      dataset_map dataset (fun x y => preprocess_func x y train)
        num_parallel_calls in
    let! batched := dataset_batch dataset batch_size in
    dataset_prefetch batched num_parallel_calls.

(** ** Iterating a dataset *)

(* The shuffle buffer: an element drawn from the buffer is emitted and its
   slot is refilled from the input while there is input left. *)
Fixpoint shuffle_buffer {A : Type} (fuel : nat) (buffer rest : list A)
  : M Rng (list A) :=
  match fuel with
  | O => ret []
  | S fuel' =>
      match buffer with
      | [] => ret []
      | _ :: _ =>
          let! i := draw_rng (random_index (length buffer)) in
          match buffer !! i with
          | None => raise InvalidArgumentError
          | Some x =>
              match rest with
              | [] =>
                  let! out := shuffle_buffer fuel' (delete i buffer) [] in
                  ret (x :: out)
              | y :: rest' =>
                  let! out := shuffle_buffer fuel' (<[i := y]> buffer) rest' in
                  ret (x :: out)
              end
          end
      end
  end.

Definition shuffle {A : Type} (buffer_size : nat) (xs : list A) : M Rng (list A) :=
  shuffle_buffer (length xs) (take buffer_size xs) (drop buffer_size xs).

(* One call of the mapped function: the element's image is the only object
   in scope; the function's result is read back from the heap. *)
Definition call_on_element (f : PreprocessFn) (e : Example) : M Rng Example :=
  fun g =>
    match f 0%nat (snd e) {| heap := [fst e]; rng := g |} with
    | (Ok (a, y), s) =>
        match heap s !! a with
        | Some o => (Ok (o, y), rng s)
        | None => (Raise UnboundError, rng s)
        end
    | (Raise err, s) => (Raise err, rng s)
    end.

Fixpoint map_elements (f : PreprocessFn) (xs : list Example)
  : M Rng (list Example) :=
  match xs with
  | [] => ret []
  | x :: xs' =>
      let! y := call_on_element f x in
      let! ys := map_elements f xs' in
      ret (y :: ys)
  end.

Fixpoint elements (d : Dataset) : M Rng (list Example) :=
  match d with
  | Source xs => ret xs
  | Shuffle n d' =>
      let! xs := elements d' in
      if n <=? 0 then raise InvalidArgumentError else shuffle (Z.to_nat n) xs
  | Map f _ d' =>
      let! xs := elements d' in
      map_elements f xs
  end.

(* batch(n): elements are collected in order and a batch is emitted as soon
   as it holds n of them; what is left at the end of the stream is emitted
   as a last, smaller batch (drop_remainder is False) *)
Fixpoint batch_elements {A : Type} (n : nat) (cur xs : list A) : list (list A) :=
  match xs with
  | [] => match cur with [] => [] | _ :: _ => [cur] end
  | x :: xs' =>
      let cur' := cur ++ [x] in
      if (length cur' =? n)%nat then cur' :: batch_elements n [] xs'
      else batch_elements n cur' xs'
  end.

(* a batch as the training loop receives it: the stacked images and the
   labels *)
Definition BatchT : Type := (Tensor * list Label)%type.

Definition stack_batch (b : list Example) : result BatchT :=
  match stack (map (fun e => value (fst e)) b) with
  | Ok t => Ok (t, map snd b)
  | Raise err => Raise err
  end.

Fixpoint stack_batches (bs : list (list Example)) : result (list BatchT) :=
  match bs with
  | [] => Ok []
  | b :: bs' =>
      match stack_batch b, stack_batches bs' with
      | Ok t, Ok ts => Ok (t :: ts)
      | Raise err, _ => Raise err
      | _, Raise err => Raise err
      end
  end.

(* prefetch only overlaps production and consumption *)
Fixpoint batches (d : BatchedDataset) : M Rng (list BatchT) :=
  match d with
  | Batch n d' =>
      let! xs := elements d' in
      if n <=? 0 then raise InvalidArgumentError
      else lift (stack_batches (batch_elements (Z.to_nat n) [] xs))
  | Prefetch _ d' => batches d'
  end.

(** ** Frame of a call *)

(* [m] keeps every object of [h0] in place, whether it returns or raises,
   and a returned value satisfies [R] *)
Definition keeps {A : Type} (h0 : list TensorObj) (m : M PpState A)
    (R : A -> Prop) : Prop :=
  forall s, h0 `prefix_of` heap s ->
    match m s with
    | (Ok a, s') => h0 `prefix_of` heap s' /\ R a
    | (Raise _, s') => h0 `prefix_of` heap s'
    end.

Definition fresh (h0 : list TensorObj) (a : addr) : Prop :=
  (length h0 <= a)%nat.

End FixRes.

(* size of the last batch of a stream of t elements *)
Definition last_batch_size (n t : nat) : nat :=
  if (t mod n =? 0)%nat then n else (t mod n)%nat.

(** * The other cells of the notebook *)

Section Notebook.

Context `{TF : TensorFlow}.

(** ** Prepare datasets

    The six calls of [make_dataset], in the order of the cell; [fixres] is
    left to its default [True] in the first four. *)

Record Datasets : Type := {
  initial_train_dataset : BatchedDataset;
  initial_val_dataset : BatchedDataset;
  finetune_train_dataset : BatchedDataset;
  finetune_val_dataset : BatchedDataset;
  vanilla_train_dataset : BatchedDataset;
  vanilla_val_dataset : BatchedDataset
}.

Definition prepare_datasets (train_dataset val_dataset : Dataset)
  : M (list DatasetOp) Datasets :=
  let! initial_train := make_dataset train_dataset true smaller_size true auto in
  let! initial_val := make_dataset val_dataset false smaller_size true auto in
  let! finetune_train := make_dataset train_dataset true bigger_size true auto in
  let! finetune_val := make_dataset val_dataset false bigger_size true auto in
  let! vanilla_train := make_dataset train_dataset true bigger_size false auto in
  let! vanilla_val := make_dataset val_dataset false bigger_size false auto in
  ret {| initial_train_dataset := initial_train;
         initial_val_dataset := initial_val;
         finetune_train_dataset := finetune_train;
         finetune_val_dataset := finetune_val;
         vanilla_train_dataset := vanilla_train;
         vanilla_val_dataset := vanilla_val |}.

(** ** Visualize the datasets

    matplotlib is a sequence of drawing calls. [batch_images[n]] and
    [.numpy().astype("int")] are operations on tensors beside those of the
    preprocessing cell. *)

Inductive PlotEvent : Type :=
| Figure (width height : Z)            (* plt.figure(figsize=(10, 10)) *)
| Subplot (nrows ncols index : Z)      (* plt.subplot(5, 5, n + 1) *)
| Imshow (image : Tensor)              (* plt.imshow(image) *)
| AxisOff                              (* plt.axis("off") *)
| Show                                 (* plt.show() *)
| Print (batch_shape : list Z).        (* print(f"Batch shape: ...") *)

Definition emit (e : PlotEvent) : M (list PlotEvent) unit :=
  fun out => (Ok tt, out ++ [e]).

(* range(n) *)
Definition range (n : nat) : list Z := map Z.of_nat (seq 0 n).

(* for n in ns: body(n) *)
Fixpoint for_each {S : Type} (ns : list Z) (body : Z -> M S unit) : M S unit :=
  match ns with
  | [] => ret tt
  | n :: ns' => let! _ := body n in for_each ns' body
  end.

Section Visualize.

(* batch_images[n] *)
Variable getitem : Tensor -> Z -> result Tensor.
(* image.numpy().astype("int") *)
Variable astype_int : Tensor -> Tensor.

Definition visualize_dataset (batch_images : Tensor) : M (list PlotEvent) unit :=
  let! _ := emit (Figure 10 10) in
  let! _ :=
    for_each (range 25) (fun n =>
      let! _ := emit (Subplot 5 5 (n + 1)) in
      let! image := lift (getitem batch_images n) in
      let! _ := emit (Imshow (astype_int image)) in
      emit AxisOff) in
  let! _ := emit Show in
  emit (Print (shape batch_images)).

(* what the loop draws for the images from index [start] on *)
Fixpoint drawn (start : Z) (images : list Tensor) : list PlotEvent :=
  match images with
  | [] => []
  | image :: images' =>
      [Subplot 5 5 (start + 1); Imshow (astype_int image); AxisOff]
        ++ drawn (start + 1) images'
  end.

End Visualize.

(** ** Frame of the random generator *)

(* [m] leaves the random generator where it was *)
Definition draws_nothing {A : Type} (m : M PpState A) : Prop :=
  forall s, rng (snd (m s)) = rng s.

(* the result of [m] and the heap it leaves do not depend on the
   generator *)
Definition ignores_rng {A : Type} (m : M PpState A) : Prop :=
  forall s1 s2, heap s1 = heap s2 ->
    fst (m s1) = fst (m s2) /\ heap (snd (m s1)) = heap (snd (m s2)).

Definition rng_free {A : Type} (m : M PpState A) : Prop :=
  draws_nothing m /\ ignores_rng m.

End Notebook.

(** ** Freezing the layers before fine-tuning

    A Keras model is the list of its layers; a layer that is itself a model
    carries the list of its own layers, and only such a layer has the
    attribute [layers]. Setting [trainable] updates the layer in place. *)

Record Layer : Type := {
  name : string;
  trainable : bool
}.

Record Block : Type := {
  block : Layer;
  sublayers : option (list Layer)   (* None for a layer that is not a model *)
}.

Inductive KerasError : Type :=
| IndexError                      (* layers[2] on a shorter list *)
| AttributeError                  (* .layers of a layer that is not a model *)
| NoSuchLayer (layer_name : string).   (* ValueError of get_layer *)

Definition set_trainable (value : bool) (l : Layer) : Layer :=
  {| name := name l; trainable := value |}.

(* for layer in layers: layer.trainable = value *)
Definition set_each_trainable (value : bool) (layers : list Layer) : list Layer :=
  foldl (fun ls i => alter (set_trainable value) i ls) layers (seq 0 (length layers)).

(* get_layer(layer_name): the first layer of that name *)
Fixpoint get_layer (layer_name : string) (layers : list Layer) : option nat :=
  match layers with
  | [] => None
  | l :: layers' =>
      if String.eqb (name l) layer_name then Some 0%nat
      else option_map S (get_layer layer_name layers')
  end.

(* for layer in smaller_res_model.layers[2].layers:
       layer.trainable = False
   smaller_res_model.layers[2].get_layer("post_bn").trainable = True *)
Definition freeze_for_finetuning (smaller_res_model : list Block)
  : (KerasError + unit) * list Block :=
  match smaller_res_model !! 2%nat with
  | None => (inl IndexError, smaller_res_model)
  | Some base =>
      match sublayers base with
      | None => (inl AttributeError, smaller_res_model)
      | Some layers =>
          let frozen := set_each_trainable false layers in
          let model1 :=
            <[2%nat := {| block := block base; sublayers := Some frozen |}]>
              smaller_res_model in
          match get_layer "post_bn" frozen with
          | None => (inl (NoSuchLayer "post_bn"), model1)
          | Some i =>
              (inr tt,
               <[2%nat := {| block := block base;
                             sublayers := Some (alter (set_trainable true) i frozen) |}]>
                 smaller_res_model)
          end
      end
  end.

(** * Properties *)

Lemma size_for_resizing_expr_ok : size_for_resizing_expr = Ok 392.
Proof. vm_compute. reflexivity. Qed.

Lemma size_for_resizing_eq : size_for_resizing = 392.
Proof. unfold size_for_resizing. rewrite size_for_resizing_expr_ok. reflexivity. Qed.

Section Monad.

Context {S : Type}.

Lemma bind_ok {A B : Type} (m : M S A) (k : A -> M S B) (s s' : S) (a : A) :
  m s = (Ok a, s') -> bind m k s = k a s'.
Proof. intros Hm. unfold bind. rewrite Hm. reflexivity. Qed.

Lemma bind_raise {A B : Type} (m : M S A) (k : A -> M S B) (s s' : S) (e : exn) :
  m s = (Raise e, s') -> bind m k s = (Raise e, s').
Proof. intros Hm. unfold bind. rewrite Hm. reflexivity. Qed.

Lemma bind_inv_ok {A B : Type} (m : M S A) (k : A -> M S B) (s s2 : S) (b : B) :
  bind m k s = (Ok b, s2) ->
  exists a s1, m s = (Ok a, s1) /\ k a s1 = (Ok b, s2).
Proof.
  unfold bind. destruct (m s) as [[a|e] s1]; intros Hk.
  - exists a, s1. split; [reflexivity | exact Hk].
  - discriminate Hk.
Qed.

End Monad.

Section Run.

Context `{TF : TensorFlow}.

(** ** One step of each operation on tensor objects *)

Lemma deref_ok (s : PpState) (a : addr) (o : TensorObj) :
  heap s !! a = Some o -> deref a s = (Ok o, s).
Proof. intros Ha. unfold deref. rewrite Ha. reflexivity. Qed.

Lemma tf_shape_ok (s : PpState) (image : addr) (o : TensorObj) :
  heap s !! image = Some o -> tf_shape image s = (Ok (shape (value o)), s).
Proof.
  intros Ha. unfold tf_shape.
  rewrite (bind_ok _ _ _ _ _ (deref_ok _ _ _ Ha)). reflexivity.
Qed.

Lemma shape_last_ok (s : PpState) (image : addr) (o : TensorObj) (d : option Z) :
  heap s !! image = Some o -> last (static_shape o) = Some d ->
  shape_last image s = (Ok d, s).
Proof.
  intros Ha Hl. unfold shape_last.
  rewrite (bind_ok _ _ _ _ _ (deref_ok _ _ _ Ha)), Hl. reflexivity.
Qed.

Lemma tf_slice_ok (s : PpState) (image : addr) (o : TensorObj)
    (begin size : list Z) (t : Tensor) :
  heap s !! image = Some o -> slice (value o) begin size = Ok t ->
  tf_slice image begin size s =
    (Ok (length (heap s)),
     {| heap := heap s ++ [{| value := t;
                              static_shape := map (fun _ => None) (static_shape o) |}];
        rng := rng s |}).
Proof.
  intros Ha Ht. unfold tf_slice.
  rewrite (bind_ok _ _ _ _ _ (deref_ok _ _ _ Ha)).
  unfold bind, lift. rewrite Ht. reflexivity.
Qed.

Lemma tf_image_resize_ok (s : PpState) (image : addr) (o : TensorObj)
    (size : list Z) (t : Tensor) :
  heap s !! image = Some o -> resize (value o) size = Ok t ->
  tf_image_resize image size s =
    (Ok (length (heap s)),
     {| heap := heap s ++ [{| value := t;
                              static_shape := map Some size ++ drop 2 (static_shape o) |}];
        rng := rng s |}).
Proof.
  intros Ha Ht. unfold tf_image_resize.
  rewrite (bind_ok _ _ _ _ _ (deref_ok _ _ _ Ha)).
  unfold bind, lift. rewrite Ht. reflexivity.
Qed.

Lemma tf_image_resize_raise (s : PpState) (image : addr) (o : TensorObj)
    (size : list Z) (e : exn) :
  heap s !! image = Some o -> resize (value o) size = Raise e ->
  tf_image_resize image size s = (Raise e, s).
Proof.
  intros Ha Ht. unfold tf_image_resize.
  rewrite (bind_ok _ _ _ _ _ (deref_ok _ _ _ Ha)).
  unfold bind, lift. rewrite Ht. reflexivity.
Qed.

Lemma tf_image_random_flip_left_right_ok (s : PpState) (image : addr) (o : TensorObj) :
  heap s !! image = Some o ->
  tf_image_random_flip_left_right image s =
    (Ok (length (heap s)),
     {| heap := heap s ++
          [{| value := if Qltb (fst (random_uniform (rng s))) (1 # 2)
                       then flip_left_right (value o) else value o;
              static_shape := static_shape o |}];
        rng := snd (random_uniform (rng s)) |}).
Proof.
  intros Ha. unfold tf_image_random_flip_left_right.
  rewrite (bind_ok _ _ _ _ _ (deref_ok _ _ _ Ha)).
  unfold bind, draw, new. destruct (random_uniform (rng s)) as [u g]. reflexivity.
Qed.

Lemma getitem_newaxis_ok (s : PpState) (image : addr) (o : TensorObj) :
  heap s !! image = Some o ->
  getitem_newaxis image s =
    (Ok (length (heap s)),
     {| heap := heap s ++ [{| value := expand_dims (value o);
                              static_shape := Some 1 :: static_shape o |}];
        rng := rng s |}).
Proof.
  intros Ha. unfold getitem_newaxis.
  rewrite (bind_ok _ _ _ _ _ (deref_ok _ _ _ Ha)). reflexivity.
Qed.

Lemma getitem_0_ok (s : PpState) (x : addr) (o : TensorObj) (t : Tensor) :
  heap s !! x = Some o -> getitem0 (value o) = Ok t ->
  getitem_0 x s =
    (Ok (length (heap s)),
     {| heap := heap s ++ [{| value := t; static_shape := tail (static_shape o) |}];
        rng := rng s |}).
Proof.
  intros Ha Ht. unfold getitem_0.
  rewrite (bind_ok _ _ _ _ _ (deref_ok _ _ _ Ha)).
  unfold bind, lift. rewrite Ht. reflexivity.
Qed.

Lemma set_shape_ok (s : PpState) (image : addr) (o : TensorObj)
    (sh st : list (option Z)) :
  heap s !! image = Some o -> merge_shape (static_shape o) sh = Ok st ->
  set_shape image sh s =
    (Ok tt,
     {| heap := <[image := {| value := value o; static_shape := st |}]> (heap s);
        rng := rng s |}).
Proof.
  intros Ha Hm. unfold set_shape.
  rewrite (bind_ok _ _ _ _ _ (deref_ok _ _ _ Ha)).
  unfold bind, lift. rewrite Hm. reflexivity.
Qed.

(* the object allocated last is found at the old length of the heap *)
Lemma lookup_new (h : list TensorObj) (o : TensorObj) :
  (h ++ [o]) !! length h = Some o.
Proof. rewrite lookup_app_r by lia. rewrite Nat.sub_diag. reflexivity. Qed.

Lemma insert_new (h : list TensorObj) (o o' : TensorObj) :
  <[length h := o']> (h ++ [o]) = h ++ [o'].
Proof.
  rewrite insert_app_r_alt by lia. rewrite Nat.sub_diag. reflexivity.
Qed.

End Run.

Section Preprocess.

Context `{TF : TensorFlow}.

Lemma image_object_static (o : TensorObj) (h w c : Z) :
  image_object o h w c ->
  exists a b ch, static_shape o = [a; b; ch].
Proof.
  intros (_ & _ & _ & _ & Hlen).
  destruct (static_shape o) as [|a [|b [|ch [|? ?]]]]; try discriminate Hlen.
  exists a, b, ch. reflexivity.
Qed.

Lemma slice_shape_box (h w c y x bh bw : Z) :
  0 <= y -> 0 <= x -> 0 < bh -> 0 < bw -> y + bh <= h -> x + bw <= w -> 0 <= c ->
  slice_shape [h; w; c] [y; x; 0] [bh; bw; -1] = Some [bh; bw; c].
Proof.
  intros Hy Hx Hbh Hbw Hyh Hxw Hc. unfold slice_shape, slice_dim.
  replace (0 <=? y) with true by (symmetry; apply Z.leb_le; lia).
  replace (y <=? h) with true by (symmetry; apply Z.leb_le; lia).
  replace (bh =? -1) with false by (symmetry; apply Z.eqb_neq; lia).
  replace (0 <=? bh) with true by (symmetry; apply Z.leb_le; lia).
  replace (y + bh <=? h) with true by (symmetry; apply Z.leb_le; lia).
  replace (0 <=? x) with true by (symmetry; apply Z.leb_le; lia).
  replace (x <=? w) with true by (symmetry; apply Z.leb_le; lia).
  replace (bw =? -1) with false by (symmetry; apply Z.eqb_neq; lia).
  replace (0 <=? bw) with true by (symmetry; apply Z.leb_le; lia).
  replace (x + bw <=? w) with true by (symmetry; apply Z.leb_le; lia).
  replace (0 <=? c) with true by (symmetry; apply Z.leb_le; lia).
  simpl. rewrite Z.sub_0_r. reflexivity.
Qed.

(** Evaluation branch of [_pp]: one resize of the whole image. *)
Lemma _pp_eval_run (image_size : Z) (image : addr) (label : Label)
    (s : PpState) (o : TensorObj) (h w c : Z) :
  heap s !! image = Some o -> image_object o h w c -> 0 < image_size ->
  exists resized,
    resize (value o) [image_size; image_size] = Ok resized /\
    shape resized = [image_size; image_size; c] /\
    _pp image_size image label false s =
      (Ok (length (heap s), label),
       {| heap := heap s ++
            [{| value := resized;
                static_shape := map Some [image_size; image_size]
                                  ++ drop 2 (static_shape o) |}];
          rng := rng s |}).
Proof.
  intros Ha (Hsh & Hh & Hw & Hc & Hlen) Hr.
  destruct (resize_ok (value o) h w c image_size image_size Hsh Hh Hw Hc Hr Hr)
    as (resized & Hres & Hshr).
  exists resized. split; [exact Hres | split; [exact Hshr |]].
  unfold _pp.
  rewrite (bind_ok _ _ _ _ _ (tf_image_resize_ok _ _ _ _ _ Ha Hres)).
  reflexivity.
Qed.

(** Training branch of [_pp]: sample a box, crop to it, resize, flip on a
    draw below one half. *)
Lemma _pp_train_run (image_size : Z) (image : addr) (label : Label)
    (s : PpState) (o : TensorObj) (h w c : Z) :
  heap s !! image = Some o -> image_object o h w c -> 0 < image_size ->
  exists y x bh bw bb g1 cropped resized ch,
    sample_distorted_bounding_box [h; w; c] [] ((5 # 100)%Q, 1%Q) 0%Q true (rng s)
      = (Ok ([y; x; 0], [bh; bw; -1], bb), g1) /\
    (0 <= y /\ 0 <= x /\ 0 < bh /\ 0 < bw /\ y + bh <= h /\ x + bw <= w) /\
    slice (value o) [y; x; 0] [bh; bw; -1] = Ok cropped /\
    shape cropped = [bh; bw; c] /\
    resize cropped [image_size; image_size] = Ok resized /\
    shape resized = [image_size; image_size; c] /\
    last (static_shape o) = Some ch /\
    _pp image_size image label true s =
      (Ok (S (S (length (heap s))), label),
       {| heap := heap s ++
            [{| value := cropped; static_shape := [None; None; ch] |};
             {| value := resized;
                static_shape := [Some image_size; Some image_size; ch] |};
             {| value := if Qltb (fst (random_uniform g1)) (1 # 2)
                         then flip_left_right resized else resized;
                static_shape := [Some image_size; Some image_size; ch] |}];
          rng := snd (random_uniform g1) |}).
Proof.
  intros Ha Himg Hr.
  destruct (image_object_static _ _ _ _ Himg) as (sa & sb & ch & Hst).
  destruct Himg as (Hsh & Hh & Hw & Hc & Hlen).
  destruct (sample_distorted_bounding_box_ok h w c (5 # 100)%Q 1%Q 0%Q (rng s))
    as (y & x & bh & bw & bb & Hsample & Hy & Hx & Hbh & Hbw & Hyh & Hxw);
    try (now compute); try lia.
  destruct (sample_distorted_bounding_box [h; w; c] [] ((5 # 100)%Q, 1%Q) 0%Q true (rng s))
    as [r g1] eqn:Hsd.
  simpl in Hsample. subst r.
  assert (Hss : slice_shape (shape (value o)) [y; x; 0] [bh; bw; -1] = Some [bh; bw; c]).
  { rewrite Hsh. apply slice_shape_box; lia. }
  destruct (slice_ok _ _ _ _ Hss) as (cropped & Hcrop & Hshc).
  destruct (resize_ok cropped bh bw c image_size image_size Hshc Hbh Hbw Hc Hr Hr)
    as (resized & Hres & Hshr).
  exists y, x, bh, bw, bb, g1, cropped, resized, ch.
  repeat (split; [first [reflexivity | assumption | lia] |]).
  split; [rewrite Hst; reflexivity |].
  unfold _pp.
  rewrite (bind_ok _ _ _ _ _ (shape_last_ok s image o ch Ha ltac:(rewrite Hst; reflexivity))).
  rewrite (bind_ok _ _ _ _ _ (tf_shape_ok s image o Ha)).
  rewrite Hsh.
  erewrite bind_ok; cycle 1.
  { unfold tf_image_sample_distorted_bounding_box. rewrite Hsd. reflexivity. }
  cbv beta iota.
  erewrite bind_ok; cycle 1.
  { apply (tf_slice_ok _ image o); [exact Ha | exact Hcrop]. }
  erewrite bind_ok; cycle 1.
  { eapply set_shape_ok; [apply lookup_new |].
    cbn [value static_shape]. rewrite Hst. reflexivity. }
  cbn [heap rng value static_shape]. rewrite insert_new.
  erewrite bind_ok; cycle 1.
  { eapply tf_image_resize_ok; [apply lookup_new | exact Hres]. }
  cbn [heap rng value static_shape].
  erewrite bind_ok; cycle 1.
  { eapply tf_image_random_flip_left_right_ok.
    cbn [heap]. rewrite length_app. cbn [length].
    replace (length (heap s) + 1)%nat with (length (heap s ++ [{| value := cropped; static_shape := [None; None; ch] |}]))
      by (rewrite length_app; reflexivity).
    apply lookup_new. }
  cbn [heap rng value static_shape ret].
  rewrite !length_app. cbn [length].
  rewrite <- !app_assoc. cbn [app map drop].
  replace (length (heap s) + 1 + 1)%nat with (S (S (length (heap s)))) by lia.
  reflexivity.
Qed.

(** The Keras layer reduces to one slice whose offsets are half the
    differences between the input and the target. *)
Lemma CenterCrop_run (height width : Z) (inputs : addr) (s : PpState)
    (o : TensorObj) (n img_hd img_wd c : Z) :
  heap s !! inputs = Some o -> shape (value o) = [n; img_hd; img_wd; c] ->
  height <= img_hd -> width <= img_wd ->
  CenterCrop height width inputs s =
    tf_slice inputs
      [0; Z.quot (img_hd - height) 2; Z.quot (img_wd - width) 2; 0]
      [-1; height; width; -1] s.
Proof.
  intros Ha Hsh Hh Hw. unfold CenterCrop.
  rewrite (bind_ok _ _ _ _ _ (tf_shape_ok s inputs o Ha)). rewrite Hsh.
  replace (img_hd - height <? 0) with false by (symmetry; apply Z.ltb_ge; lia).
  replace (img_wd - width <? 0) with false by (symmetry; apply Z.ltb_ge; lia).
  reflexivity.
Qed.

Lemma central_crop_layer_run (inputs : addr) (s : PpState) (o : TensorObj) (n c : Z) :
  heap s !! inputs = Some o ->
  shape (value o) = [n; size_for_resizing; size_for_resizing; c] ->
  central_crop_layer inputs s =
    tf_slice inputs [0; 84; 84; 0] [-1; 224; 224; -1] s.
Proof.
  intros Ha Hsh. unfold central_crop_layer.
  rewrite (CenterCrop_run _ _ _ _ _ _ _ _ _ Ha Hsh)
    by (rewrite size_for_resizing_eq; unfold bigger_size; lia).
  rewrite size_for_resizing_eq. reflexivity.
Qed.

Lemma slice_dim_whole (d : Z) : 0 <= d -> slice_dim d 0 (-1) = Some d.
Proof.
  intros Hd. unfold slice_dim.
  replace (0 <=? d) with true by (symmetry; apply Z.leb_le; lia).
  simpl. rewrite Z.sub_0_r. reflexivity.
Qed.

Lemma slice_shape_center (c : Z) :
  0 <= c ->
  slice_shape [1; 392; 392; c] [0; 84; 84; 0] [-1; 224; 224; -1]
    = Some [1; 224; 224; c].
Proof.
  intros Hc. unfold slice_shape.
  rewrite (slice_dim_whole c Hc). reflexivity.
Qed.

(** The last three statements of [preprocess_finetune], from an image that
    has already been resized to 392 x 392. *)
Lemma center_crop_tail_run (a : addr) (label : Label) (s : PpState)
    (o : TensorObj) (c : Z) :
  heap s !! a = Some o -> shape (value o) = [392; 392; c] -> 0 <= c ->
  exists cropped out,
    slice (expand_dims (value o)) [0; 84; 84; 0] [-1; 224; 224; -1] = Ok cropped /\
    getitem0 cropped = Ok out /\
    slice (value o) [84; 84; 0] [224; 224; -1] = Ok out /\
    shape out = [224; 224; c] /\
    (let! x := getitem_newaxis a in
     let! x := central_crop_layer x in
     let! image := getitem_0 x in
     ret (image, label)) s =
      (Ok (S (S (length (heap s))), label),
       {| heap := heap s ++
            [{| value := expand_dims (value o);
                static_shape := Some 1 :: static_shape o |};
             {| value := cropped;
                static_shape := None :: map (fun _ => None) (static_shape o) |};
             {| value := out;
                static_shape := map (fun _ => None) (static_shape o) |}];
          rng := rng s |}).
Proof.
  intros Ha Hsh Hc.
  assert (Hse : shape (expand_dims (value o)) = [1; 392; 392; c]).
  { rewrite expand_dims_shape, Hsh. reflexivity. }
  assert (Hss : slice_shape (shape (expand_dims (value o)))
                  [0; 84; 84; 0] [-1; 224; 224; -1] = Some [1; 224; 224; c]).
  { rewrite Hse. apply slice_shape_center, Hc. }
  destruct (slice_ok _ _ _ _ Hss) as (cropped & Hcrop & Hshc).
  destruct (getitem0_ok cropped 1 [224; 224; c] Hshc ltac:(lia)) as (out & Hout & Hsho).
  exists cropped, out.
  split; [exact Hcrop | split; [exact Hout | split; [| split; [exact Hsho |]]]].
  { rewrite <- slice_expand_dims, Hcrop. exact Hout. }
  rewrite (bind_ok _ _ _ _ _ (getitem_newaxis_ok s a o Ha)).
  erewrite bind_ok; cycle 1.
  { erewrite central_crop_layer_run.
    - eapply tf_slice_ok; [apply lookup_new | exact Hcrop].
    - apply lookup_new.
    - cbn [value]. rewrite size_for_resizing_eq. exact Hse. }
  cbn [heap rng value static_shape].
  erewrite bind_ok; cycle 1.
  { eapply getitem_0_ok;
      [cbn [heap]; apply lookup_new | exact Hout]. }
  cbn [heap rng value static_shape ret tail map].
  rewrite !length_app. cbn [length].
  rewrite <- !app_assoc. cbn [app].
  replace (length (heap s) + 1 + 1)%nat with (S (S (length (heap s)))) by lia.
  reflexivity.
Qed.

Lemma lookup_new3 (h : list TensorObj) (o1 o2 o3 : TensorObj) :
  (h ++ [o1; o2; o3]) !! S (S (length h)) = Some o3.
Proof.
  rewrite lookup_app_r by lia.
  replace (S (S (length h)) - length h)%nat with 2%nat by lia. reflexivity.
Qed.

(** [preprocess_finetune] as a whole: resize to 392 x 392, flip on a draw
    below one half when training, crop 224 x 224 at offset (84, 84). *)
Lemma preprocess_finetune_run (image : addr) (label : Label) (train : bool)
    (s : PpState) (o : TensorObj) (h w c : Z) :
  heap s !! image = Some o -> image_object o h w c ->
  exists resized out a s' o',
    resize (value o) [392; 392] = Ok resized /\
    shape resized = [392; 392; c] /\
    slice (if train && Qltb (fst (random_uniform (rng s))) (1 # 2)
           then flip_left_right resized else resized)
          [84; 84; 0] [224; 224; -1] = Ok out /\
    shape out = [224; 224; c] /\
    preprocess_finetune image label train s = (Ok (a, label), s') /\
    heap s' !! a = Some o' /\ value o' = out /\
    rng s' = (if train then snd (random_uniform (rng s)) else rng s).
Proof.
  intros Ha (Hsh & Hh & Hw & Hc & Hlen).
  destruct (resize_ok (value o) h w c 392 392 Hsh Hh Hw Hc) as (resized & Hres & Hshr);
    try lia.
  unfold preprocess_finetune. rewrite size_for_resizing_eq.
  rewrite (bind_ok _ _ _ _ _ (tf_image_resize_ok _ _ _ _ _ Ha Hres)).
  destruct train.
  - erewrite bind_ok; cycle 1.
    { eapply tf_image_random_flip_left_right_ok. apply lookup_new. }
    cbn [heap rng value static_shape andb].
    set (flipped := if Qltb (fst (random_uniform (rng s))) (1 # 2)
                    then flip_left_right resized else resized).
    assert (Hshf : shape flipped = [392; 392; c]).
    { unfold flipped. destruct (Qltb _ _); [rewrite flip_left_right_shape |]; exact Hshr. }
    match goal with
    | |- context [bind (getitem_newaxis ?a) _ ?st] =>
        edestruct (center_crop_tail_run a label st) as
          (cropped & out & Hcrop & Hout & Hslice & Hsho & Hrun);
          [cbn [heap]; apply lookup_new | exact Hshf | lia |]
    end.
    exists resized, out. eexists. eexists. eexists.
    split; [exact Hres | split; [exact Hshr | split; [exact Hslice | split; [exact Hsho |]]]].
    split; [exact Hrun |].
    split; [apply lookup_new3 | split; reflexivity].
  - erewrite bind_ok; cycle 1.
    { reflexivity. }
    cbn [andb].
    match goal with
    | |- context [bind (getitem_newaxis ?a) _ ?st] =>
        edestruct (center_crop_tail_run a label st) as
          (cropped & out & Hcrop & Hout & Hslice & Hsho & Hrun);
          [cbn [heap]; apply lookup_new | exact Hshr | lia |]
    end.
    exists resized, out. eexists. eexists. eexists.
    split; [exact Hres | split; [exact Hshr | split; [exact Hslice | split; [exact Hsho |]]]].
    split; [exact Hrun |].
    split; [apply lookup_new3 | split; reflexivity].
Qed.

End Preprocess.

(** ** Objects that exist before a call are left as they are *)

Section Frame.

Context `{TF : TensorFlow}.

Lemma keeps_bind {A B : Type} (h0 : list TensorObj) (m : M PpState A)
    (k : A -> M PpState B) (R : A -> Prop) (R' : B -> Prop) :
  keeps h0 m R -> (forall a, R a -> keeps h0 (k a) R') ->
  keeps h0 (bind m k) R'.
Proof.
  intros Hm Hk s Hs. unfold bind. specialize (Hm s Hs).
  destruct (m s) as [[a|e] s1].
  - destruct Hm as [Hs1 Ha]. exact (Hk a Ha s1 Hs1).
  - exact Hm.
Qed.

Lemma keeps_weaken {A : Type} (h0 : list TensorObj) (m : M PpState A)
    (R R' : A -> Prop) :
  keeps h0 m R -> (forall a, R a -> R' a) -> keeps h0 m R'.
Proof.
  intros Hm HR s Hs. specialize (Hm s Hs).
  destruct (m s) as [[a|e] s1]; [| exact Hm].
  destruct Hm as [Hs1 Ha]. split; [exact Hs1 | exact (HR a Ha)].
Qed.

Lemma keeps_ret {A : Type} (h0 : list TensorObj) (a : A) (R : A -> Prop) :
  R a -> keeps h0 (ret a) R.
Proof. intros Ha s Hs. simpl. split; assumption. Qed.

Lemma keeps_raise {A : Type} (h0 : list TensorObj) (e : exn) (R : A -> Prop) :
  keeps h0 (raise e) R.
Proof. intros s Hs. exact Hs. Qed.

Lemma keeps_lift {A : Type} (h0 : list TensorObj) (r : result A) :
  keeps h0 (lift r) (fun _ => True).
Proof. intros s Hs. unfold lift. destruct r; [split; [exact Hs | exact I] | exact Hs]. Qed.

Lemma keeps_deref (h0 : list TensorObj) (a : addr) :
  keeps h0 (deref a) (fun _ => True).
Proof.
  intros s Hs. unfold deref. destruct (heap s !! a); [split; [exact Hs | exact I] | exact Hs].
Qed.

Lemma keeps_draw {A : Type} (h0 : list TensorObj) (f : Rng -> A * Rng) :
  keeps h0 (draw f) (fun _ => True).
Proof.
  intros s Hs. unfold draw. destruct (f (rng s)) as [a g]. split; [exact Hs | exact I].
Qed.

Lemma keeps_new (h0 : list TensorObj) (t : Tensor) (st : list (option Z)) :
  keeps h0 (new t st) (fresh h0).
Proof.
  intros s Hs. unfold new. cbn [heap]. split.
  - apply prefix_app_r, Hs.
  - unfold fresh. apply prefix_length, Hs.
Qed.

Lemma keeps_tf_shape (h0 : list TensorObj) (image : addr) :
  keeps h0 (tf_shape image) (fun _ => True).
Proof.
  unfold tf_shape. eapply keeps_bind; [apply keeps_deref |].
  intros o _. apply keeps_ret. exact I.
Qed.

Lemma keeps_shape_last (h0 : list TensorObj) (image : addr) :
  keeps h0 (shape_last image) (fun _ => True).
Proof.
  unfold shape_last. eapply keeps_bind; [apply keeps_deref |].
  intros o _. destruct (last (static_shape o)); [apply keeps_ret; exact I | apply keeps_raise].
Qed.

Lemma keeps_sample (h0 : list TensorObj) (image_size : list Z) (boxes : list BBox)
    (area_range : Q * Q) (moc : Q) (use : bool) :
  keeps h0 (tf_image_sample_distorted_bounding_box image_size boxes area_range moc use)
    (fun _ => True).
Proof.
  intros s Hs. unfold tf_image_sample_distorted_bounding_box.
  destruct (sample_distorted_bounding_box _ _ _ _ _ _) as [[r|e] g];
    [split; [exact Hs | exact I] | exact Hs].
Qed.

Lemma keeps_tf_slice (h0 : list TensorObj) (image : addr) (begin size : list Z) :
  keeps h0 (tf_slice image begin size) (fresh h0).
Proof.
  unfold tf_slice. eapply keeps_bind; [apply keeps_deref |].
  intros o _. eapply keeps_bind; [apply keeps_lift |].
  intros t _. apply keeps_new.
Qed.

Lemma keeps_tf_image_resize (h0 : list TensorObj) (image : addr) (size : list Z) :
  keeps h0 (tf_image_resize image size) (fresh h0).
Proof.
  unfold tf_image_resize. eapply keeps_bind; [apply keeps_deref |].
  intros o _. eapply keeps_bind; [apply keeps_lift |].
  intros t _. apply keeps_new.
Qed.

Lemma keeps_random_flip (h0 : list TensorObj) (image : addr) :
  keeps h0 (tf_image_random_flip_left_right image) (fresh h0).
Proof.
  unfold tf_image_random_flip_left_right. eapply keeps_bind; [apply keeps_deref |].
  intros o _. eapply keeps_bind; [apply keeps_draw |].
  intros u _. apply keeps_new.
Qed.

Lemma keeps_getitem_newaxis (h0 : list TensorObj) (image : addr) :
  keeps h0 (getitem_newaxis image) (fresh h0).
Proof.
  unfold getitem_newaxis. eapply keeps_bind; [apply keeps_deref |].
  intros o _. apply keeps_new.
Qed.

Lemma keeps_getitem_0 (h0 : list TensorObj) (x : addr) :
  keeps h0 (getitem_0 x) (fresh h0).
Proof.
  unfold getitem_0. eapply keeps_bind; [apply keeps_deref |].
  intros o _. eapply keeps_bind; [apply keeps_lift |].
  intros t _. apply keeps_new.
Qed.

Lemma keeps_CenterCrop (h0 : list TensorObj) (height width : Z) (inputs : addr) :
  keeps h0 (CenterCrop height width inputs) (fresh h0).
Proof.
  unfold CenterCrop. eapply keeps_bind; [apply keeps_tf_shape |].
  intros sh _.
  destruct sh as [|? [|img_hd [|img_wd [|? [|? ?]]]]]; try apply keeps_raise.
  destruct (_ || _); [apply keeps_raise | apply keeps_tf_slice].
Qed.

(* the one write: allowed on an object created after [h0] *)
Lemma keeps_set_shape (h0 : list TensorObj) (image : addr) (sh : list (option Z)) :
  fresh h0 image -> keeps h0 (set_shape image sh) (fun _ => True).
Proof.
  intros Hfresh. unfold set_shape. eapply keeps_bind; [apply keeps_deref |].
  intros o _. eapply keeps_bind; [apply keeps_lift |].
  intros st _ s [k Hs]. split; [| exact I]. cbn [heap].
  rewrite Hs. rewrite insert_app_r_alt by exact Hfresh.
  apply prefix_app_r. reflexivity.
Qed.

Lemma keeps__pp (h0 : list TensorObj) (image_size : Z) (image : addr)
    (label : Label) (train : bool) :
  keeps h0 (_pp image_size image label train) (fun r => snd r = label).
Proof.
  unfold _pp. destruct train.
  - eapply keeps_bind; [apply keeps_shape_last |]. intros channels _.
    eapply keeps_bind; [apply keeps_tf_shape |]. intros image_shape _.
    eapply keeps_bind; [apply keeps_sample |]. intros [[begin size] bb] _.
    eapply keeps_bind; [apply keeps_tf_slice |]. intros image1 Hfresh.
    eapply keeps_bind; [apply keeps_set_shape, Hfresh |]. intros _ _.
    eapply keeps_bind; [apply keeps_tf_image_resize |]. intros image2 _.
    eapply keeps_bind; [apply keeps_random_flip |]. intros image3 _.
    apply keeps_ret. reflexivity.
  - eapply keeps_bind; [apply keeps_tf_image_resize |]. intros image1 _.
    apply keeps_ret. reflexivity.
Qed.

Lemma keeps_preprocess_finetune (h0 : list TensorObj) (image : addr)
    (label : Label) (train : bool) :
  keeps h0 (preprocess_finetune image label train) (fun r => snd r = label).
Proof.
  unfold preprocess_finetune.
  eapply keeps_bind; [apply keeps_tf_image_resize |]. intros image1 _.
  eapply keeps_bind with (R := fun _ => True).
  { destruct train.
    - eapply keeps_weaken; [apply keeps_random_flip | intros; exact I].
    - apply keeps_ret. exact I. }
  intros image2 _.
  eapply keeps_bind; [apply keeps_getitem_newaxis |]. intros x _.
  eapply keeps_bind; [apply keeps_CenterCrop |]. intros x' _.
  eapply keeps_bind; [apply keeps_getitem_0 |]. intros image3 _.
  apply keeps_ret. reflexivity.
Qed.

Lemma keeps_preprocess_func (h0 : list TensorObj) (train : bool) (image_size : Z)
    (fixres : bool) (image : addr) (label : Label) (train' : bool) :
  keeps h0 (preprocess_func train image_size fixres image label train')
    (fun r => snd r = label).
Proof.
  unfold preprocess_func, preprocess_initial.
  destruct (image_size =? smaller_size); [apply keeps__pp |].
  destruct (negb fixres && (image_size =? bigger_size));
    [apply keeps__pp | apply keeps_preprocess_finetune].
Qed.

End Frame.

Section Claims.

Context `{TF : TensorFlow}.

Lemma center_crop_392 (t : Tensor) (c : Z) :
  shape t = [392; 392; c] ->
  center_crop 224 224 t = slice t [84; 84; 0] [224; 224; -1].
Proof. intros Hsh. unfold center_crop. rewrite Hsh. reflexivity. Qed.

(* the selected function returns, and returns an image of the requested
   size with the label it was given *)
Lemma preprocess_func_run (r : Z) (train fixres : bool) (image : addr)
    (label : Label) (s : PpState) (o : TensorObj) (h w c : Z) :
  r = 128 \/ r = 224 ->
  heap s !! image = Some o -> image_object o h w c ->
  exists image' s' o',
    preprocess_func train r fixres image label train s = (Ok (image', label), s') /\
    heap s' !! image' = Some o' /\
    shape (value o') = [r; r; c].
Proof.
  intros Hr Ha Himg.
  assert (Hinit : 0 < r ->
    exists image' s' o',
      _pp r image label train s = (Ok (image', label), s') /\
      heap s' !! image' = Some o' /\ shape (value o') = [r; r; c]).
  { intros Hpos. destruct train.
    - destruct (_pp_train_run r image label s o h w c Ha Himg Hpos)
        as (y & x & bh & bw & bb & g1 & cropped & resized & ch &
            _ & _ & _ & _ & _ & Hshr & _ & Hrun).
      eexists. eexists. eexists.
      split; [exact Hrun | split; [apply lookup_new3 |]].
      cbn [value]. destruct (Qltb _ _); [rewrite flip_left_right_shape |]; exact Hshr.
    - destruct (_pp_eval_run r image label s o h w c Ha Himg Hpos)
        as (resized & _ & Hshr & Hrun).
      eexists. eexists. eexists.
      split; [exact Hrun | split; [apply lookup_new | exact Hshr]]. }
  destruct Hr as [-> | ->].
  - apply Hinit. lia.
  - destruct fixres.
    + destruct (preprocess_finetune_run image label train s o h w c Ha Himg)
        as (resized & out & a & s' & o' & _ & _ & _ & Hsho & Hrun & Hlook & Hval & _).
      exists a, s', o'.
      split; [exact Hrun | split; [exact Hlook | rewrite Hval; exact Hsho]].
    + apply Hinit. lia.
Qed.

(** C1. For a supported resolution r (128 or 224), any train and fixres
    flags and any non-empty image with 3 channels, whatever its height and
    width, the selected preprocessing function returns an image of shape
    [r, r, 3]. *)
Theorem preprocess_output_shape (r : Z) (train fixres : bool) (image : addr)
    (label : Label) (s : PpState) (o : TensorObj) (h w : Z) :
  r = 128 \/ r = 224 ->
  heap s !! image = Some o -> image_object o h w 3 ->
  exists image' label' s' o',
    preprocess_func train r fixres image label train s = (Ok (image', label'), s') /\
    heap s' !! image' = Some o' /\
    shape (value o') = [r; r; 3].
Proof.
  intros Hr Ha Himg.
  destruct (preprocess_func_run r train fixres image label s o h w 3 Hr Ha Himg)
    as (image' & s' & o' & Hrun & Hlook & Hsh).
  exists image', label, s', o'. repeat split; assumption.
Qed.

(** C2. For an image_size other than 128 and 224, make_dataset raises the
    ValueError for that size, whatever the other arguments, and no dataset
    operation (shuffle, map, batch, prefetch) has been created at that
    point. *)
Theorem make_dataset_unsupported (dataset : Dataset) (train : bool)
    (image_size : Z) (fixres : bool) (num_parallel_calls : Z)
    (ops : list DatasetOp) :
  image_size <> 128 -> image_size <> 224 ->
  make_dataset dataset train image_size fixres num_parallel_calls ops
    = (Raise (ValueError image_size), ops).
Proof.
  intros H128 H224. unfold make_dataset, smaller_size, bigger_size.
  cbn [existsb].
  replace (image_size =? 128) with false by (symmetry; apply Z.eqb_neq; exact H128).
  replace (image_size =? 224) with false by (symmetry; apply Z.eqb_neq; exact H224).
  reflexivity.
Qed.

(** C5. With resolution 224 and fixres false, make_dataset maps the same
    function as with resolution 128, [preprocess_initial train], applied to
    the respective image_size; the two pipelines differ in that argument
    only. *)
Theorem vanilla_selects_initial (dataset : Dataset) (train fixres : bool)
    (num_parallel_calls : Z) (ops : list DatasetOp) :
  let pipeline := fun image_size =>
    Prefetch num_parallel_calls
      (Batch batch_size
         (Map (fun x y => preprocess_initial train image_size x y train)
              num_parallel_calls
              (if train then Shuffle (batch_size * 10) dataset else dataset))) in
  preprocess_func train bigger_size false = preprocess_initial train bigger_size /\
  preprocess_func train smaller_size fixres = preprocess_initial train smaller_size /\
  fst (make_dataset dataset train bigger_size false num_parallel_calls ops)
    = Ok (pipeline bigger_size) /\
  fst (make_dataset dataset train smaller_size fixres num_parallel_calls ops)
    = Ok (pipeline smaller_size).
Proof.
  intros pipeline. unfold pipeline.
  repeat split; try reflexivity; destruct train; reflexivity.
Qed.

(** C10. With image_size 128 the fixres flag is not consulted: make_dataset
    selects the same function and builds the same pipeline for fixres true
    and fixres false. *)
Theorem fixres_ignored_at_smaller_size (dataset : Dataset) (train : bool)
    (num_parallel_calls : Z) (ops : list DatasetOp) :
  preprocess_func train smaller_size true = preprocess_func train smaller_size false /\
  make_dataset dataset train smaller_size true num_parallel_calls ops
    = make_dataset dataset train smaller_size false num_parallel_calls ops.
Proof. split; reflexivity. Qed.


(** C9. Whatever the resolution and the flags, and whether the call returns
    or raises, the preprocessing function leaves every object that existed
    before the call as it was, the input image among them, and the label it
    returns is the label it was given. *)
Theorem preprocess_keeps_label_and_input (train : bool) (image_size : Z)
    (fixres : bool) (image : addr) (label : Label) (s : PpState) :
  let r := preprocess_func train image_size fixres image label train s in
  (forall image' label', fst r = Ok (image', label') -> label' = label) /\
  heap s `prefix_of` heap (snd r) /\
  (forall a o, heap s !! a = Some o -> heap (snd r) !! a = Some o).
Proof.
  intros r.
  pose proof (keeps_preprocess_func (heap s) train image_size fixres image label train s
                ltac:(reflexivity)) as Hk.
  fold r in Hk. destruct r as [[[image' label']|e] s']; cbn [fst snd].
  - destruct Hk as [Hpre Hl]. cbn [snd] in Hl.
    split; [intros ? ? [= _ <-]; exact Hl |].
    split; [exact Hpre |].
    intros a o Ha. eapply prefix_lookup_Some; [exact Ha | exact Hpre].
  - split; [intros ? ? [=] |].
    split; [exact Hk |].
    intros a o Ha. eapply prefix_lookup_Some; [exact Ha | exact Hk].
Qed.

Lemma center_crop_ok (t : Tensor) (c : Z) :
  shape t = [392; 392; c] -> 0 <= c ->
  exists out, center_crop 224 224 t = Ok out /\ shape out = [224; 224; c].
Proof.
  intros Hsh Hc. rewrite (center_crop_392 t c Hsh).
  apply slice_ok. rewrite Hsh. apply slice_shape_box; lia.
Qed.

Lemma Ok_inj {A : Type} (a b : A) : Ok a = Ok b -> a = b.
Proof. intros [= ->]. reflexivity. Qed.

(** C3. With resolution 224, fixres true and train false the preprocessing
    function is a function of the image alone: on every state holding the
    image it returns the same output, the image resized to 392 x 392 and
    center-cropped to 224 x 224, and it draws no random number. *)
Theorem finetune_eval_deterministic (o : TensorObj) (h w c : Z) :
  image_object o h w c ->
  exists resized out,
    resize (value o) [392; 392] = Ok resized /\
    center_crop 224 224 resized = Ok out /\
    forall (image : addr) (label : Label) (s : PpState),
      heap s !! image = Some o ->
      finetune_strategy false (value o) (rng s) = (Ok out, rng s) /\
      exists image' s' o',
        preprocess_func false bigger_size true image label false s
          = (Ok (image', label), s') /\
        heap s' !! image' = Some o' /\ value o' = out /\ rng s' = rng s.
Proof.
  intros Himg. pose proof Himg as (Hsh & Hh & Hw & Hc & Hlen).
  destruct (resize_ok (value o) h w c 392 392 Hsh Hh Hw Hc) as (resized & Hres & Hshr);
    try lia.
  destruct (center_crop_ok resized c Hshr) as (out & Hout & Hsho); [lia |].
  exists resized, out. split; [exact Hres | split; [exact Hout |]].
  intros image label s Ha. split.
  - unfold finetune_strategy, bind, lift, ret. rewrite Hres, Hout. reflexivity.
  - destruct (preprocess_finetune_run image label false s o h w c Ha Himg)
      as (resized' & out' & a & s' & o' & Hres' & Hshr' & Hslice & _ & Hrun & Hlook & Hval & Hrng).
    rewrite Hres in Hres'. apply Ok_inj in Hres'. subst resized'.
    cbn [andb] in Hslice. rewrite <- (center_crop_392 resized c Hshr), Hout in Hslice.
    apply Ok_inj in Hslice. subst out'.
    exists a, s', o'. repeat split; assumption.
Qed.

(** C4. With resolution 224, fixres true and train true, the output for a
    given image is one of two tensors: the 224 x 224 center crop of the
    image resized to 392 x 392, or the same crop of the mirrored resized
    image; the mirrored one is returned exactly when the uniform draw is
    below 0.5. Both have shape [224, 224, c]. *)
Theorem finetune_train_flip_only (o : TensorObj) (h w c : Z) :
  image_object o h w c ->
  exists resized plain mirrored,
    resize (value o) [392; 392] = Ok resized /\
    center_crop 224 224 resized = Ok plain /\
    center_crop 224 224 (flip_left_right resized) = Ok mirrored /\
    shape plain = [224; 224; c] /\ shape mirrored = [224; 224; c] /\
    forall (image : addr) (label : Label) (s : PpState),
      heap s !! image = Some o ->
      let out := if Qltb (fst (random_uniform (rng s))) (1 # 2)
                 then mirrored else plain in
      finetune_strategy true (value o) (rng s)
        = (Ok out, snd (random_uniform (rng s))) /\
      exists image' s' o',
        preprocess_func true bigger_size true image label true s
          = (Ok (image', label), s') /\
        heap s' !! image' = Some o' /\
        value o' = out /\
        rng s' = snd (random_uniform (rng s)).
Proof.
  intros Himg. pose proof Himg as (Hsh & Hh & Hw & Hc & Hlen).
  destruct (resize_ok (value o) h w c 392 392 Hsh Hh Hw Hc) as (resized & Hres & Hshr);
    try lia.
  assert (Hshf : shape (flip_left_right resized) = [392; 392; c])
    by (rewrite flip_left_right_shape; exact Hshr).
  destruct (center_crop_ok resized c Hshr) as (plain & Hplain & Hshp); [lia |].
  destruct (center_crop_ok (flip_left_right resized) c Hshf)
    as (mirrored & Hmirrored & Hshm); [lia |].
  exists resized, plain, mirrored.
  repeat (split; [assumption |]).
  intros image label s Ha out. split.
  { unfold finetune_strategy, bind, lift. rewrite Hres.
    unfold random_flip, bind, draw_rng, ret. unfold out.
    destruct (random_uniform (rng s)) as [u g2]. cbn [fst snd].
    destruct (Qltb u (1 # 2)); [rewrite Hmirrored | rewrite Hplain]; reflexivity. }
  destruct (preprocess_finetune_run image label true s o h w c Ha Himg)
    as (resized' & out' & a & s' & o' & Hres' & Hshr' & Hslice & _ & Hrun & Hlook & Hval & Hrng).
  rewrite Hres in Hres'. apply Ok_inj in Hres'. subst resized'.
  exists a, s', o'. split; [exact Hrun | split; [exact Hlook | split; [| exact Hrng]]].
  rewrite Hval. cbn [andb] in Hslice. unfold out.
  destruct (Qltb _ _).
  - rewrite <- (center_crop_392 _ c Hshf), Hmirrored in Hslice.
    apply Ok_inj in Hslice. symmetry. exact Hslice.
  - rewrite <- (center_crop_392 _ c Hshr), Hplain in Hslice.
    apply Ok_inj in Hslice. symmetry. exact Hslice.
Qed.

End Claims.

Section InitialStrategy.

Context `{TF : TensorFlow}.

(* the sampler keeps to the area range it is given *)
Hypothesis sampler_area : sampler_respects_area_range.

Lemma area_fraction_whole (h w : Z) :
  0 < h -> 0 < w -> (area_fraction h w h w == 1)%Q.
Proof.
  intros Hh Hw. unfold area_fraction, Qdiv. apply Qmult_inv_r.
  unfold Qeq. cbn [Qnum Qden inject_Z]. nia.
Qed.


End InitialStrategy.

(** ** Batching *)

Section Batching.

Context {A : Type}.

Lemma batch_elements_concat (n : nat) (cur xs : list A) :
  concat (batch_elements n cur xs) = cur ++ xs.
Proof.
  revert cur. induction xs as [|x xs IH]; intros cur; cbn [batch_elements].
  - destruct cur; cbn; [reflexivity | rewrite !app_nil_r; reflexivity].
  - destruct (length (cur ++ [x]) =? n)%nat.
    + cbn [concat]. rewrite IH. rewrite app_nil_l, <- app_assoc. reflexivity.
    + rewrite IH, <- app_assoc. reflexivity.
Qed.

Lemma batch_elements_length (n : nat) (cur xs : list A) :
  (0 < n)%nat -> (length cur < n)%nat ->
  length (batch_elements n cur xs) = ((length cur + length xs + n - 1) / n)%nat.
Proof.
  intros Hn. revert cur. induction xs as [|x xs IH]; intros cur Hcur; cbn [batch_elements].
  - destruct cur as [|a cur]; cbn [length] in *.
    + symmetry. apply Nat.div_small. lia.
    + symmetry.
      replace (S (length cur) + 0 + n - 1)%nat with (1 * n + length cur)%nat by lia.
      rewrite Nat.div_add_l by lia. rewrite Nat.div_small by lia. reflexivity.
  - rewrite length_app. cbn [length].
    destruct (Nat.eqb_spec (length cur + 1) n) as [Heq | Hne].
    + cbn [length]. rewrite IH by (cbn; lia). cbn [length].
      replace (length cur + S (length xs) + n - 1)%nat
        with (1 * n + (0 + length xs + n - 1))%nat by lia.
      rewrite Nat.div_add_l by lia. reflexivity.
    + rewrite IH by (rewrite length_app; cbn; lia).
      rewrite length_app. cbn [length]. f_equal. lia.
Qed.

Lemma batch_elements_sizes (n : nat) (cur xs : list A) (i : nat) (b : list A) :
  (0 < n)%nat -> (length cur < n)%nat ->
  batch_elements n cur xs !! i = Some b ->
  length b =
    if (S i <? length (batch_elements n cur xs))%nat then n
    else last_batch_size n (length cur + length xs).
Proof.
  intros Hn. revert cur i. induction xs as [|x xs IH]; intros cur i Hcur; cbn [batch_elements].
  - destruct cur as [|a cur]; [intros Hb; discriminate Hb |].
    destruct i as [|i]; [| intros Hb; discriminate Hb].
    intros [= <-]. cbn [length] in *. unfold last_batch_size.
    rewrite Nat.add_0_r. rewrite (Nat.mod_small (S (length cur)) n) by lia.
    reflexivity.
  - pose proof (length_app cur [x]) as Hlen. cbn [length] in Hlen.
    destruct (Nat.eqb_spec (length (cur ++ [x])) n) as [Heq | Hne].
    + destruct i as [|i].
      * intros [= <-]. cbn [length].
        destruct xs as [|x' xs].
        -- cbn [batch_elements length]. unfold last_batch_size.
           replace (length cur + 1)%nat with n by lia.
           rewrite Nat.Div0.mod_same. exact Heq.
        -- destruct (S 0 <? S (length (batch_elements n [] (x' :: xs))))%nat eqn:Hlt;
             [exact Heq |].
           apply Nat.ltb_ge in Hlt.
           rewrite batch_elements_length in Hlt by (cbn; lia). cbn [length] in Hlt.
           exfalso.
           replace (0 + S (length xs) + n - 1)%nat with (1 * n + length xs)%nat in Hlt by lia.
           rewrite Nat.div_add_l in Hlt by lia. lia.
      * intros Hb. cbn in Hb. specialize (IH [] i ltac:(cbn; lia) Hb).
        rewrite IH. cbn [length].
        replace (S (S i) <? S (length (batch_elements n [] xs)))%nat
          with (S i <? length (batch_elements n [] xs))%nat
          by (destruct (Nat.ltb_spec (S i) (length (batch_elements n [] xs)));
              destruct (Nat.ltb_spec (S (S i)) (S (length (batch_elements n [] xs)))); lia).
        destruct (S i <? _)%nat; [reflexivity |].
        unfold last_batch_size.
        replace (length cur + S (length xs))%nat with (0 + length xs + 1 * n)%nat by lia.
        rewrite Nat.Div0.mod_add. reflexivity.
    + intros Hb. specialize (IH (cur ++ [x]) i ltac:(lia) Hb).
      rewrite IH. rewrite Hlen.
      replace (length cur + 1 + length xs)%nat with (length cur + S (length xs))%nat by lia.
      reflexivity.
Qed.

Lemma batch_elements_nonempty (n : nat) (cur xs : list A) :
  Forall (fun b => b <> []) (batch_elements n cur xs).
Proof.
  revert cur. induction xs as [|x xs IH]; intros cur; cbn [batch_elements].
  - destruct cur; [constructor | constructor; [discriminate | constructor]].
  - destruct (length (cur ++ [x]) =? n)%nat; [| apply IH].
    constructor; [| apply IH]. destruct cur; discriminate.
Qed.

Lemma batch_elements_Forall (P : A -> Prop) (n : nat) (cur xs : list A) :
  Forall P cur -> Forall P xs ->
  Forall (Forall P) (batch_elements n cur xs).
Proof.
  intros Hcur Hxs.
  assert (Hall : Forall P (concat (batch_elements n cur xs))).
  { rewrite batch_elements_concat. apply Forall_app. split; assumption. }
  revert Hall. generalize (batch_elements n cur xs). intros bs.
  induction bs as [|b bs IH]; cbn [concat]; intros Hall; [constructor |].
  apply Forall_app in Hall as [Hb Hbs]. constructor; [exact Hb | apply IH, Hbs].
Qed.

End Batching.

(* ceil(N / B) for B = 128, in the integers *)
Lemma ceiling_div_128 (N : nat) :
  Qceiling (Z.of_nat N # 128) = Z.of_nat ((N + 128 - 1) / 128).
Proof.
  unfold Qceiling, Qfloor. cbn [Qopp Qnum Qden].
  rewrite Nat2Z.inj_div. rewrite Nat2Z.inj_sub by lia. rewrite Nat2Z.inj_add.
  change (Z.of_nat 128) with 128. change (Z.of_nat 1) with 1.
  pose proof (Z.div_mod (- Z.of_nat N) 128 ltac:(lia)) as H1.
  pose proof (Z.mod_pos_bound (- Z.of_nat N) 128 ltac:(lia)) as H2.
  pose proof (Z.div_mod (Z.of_nat N + 128 - 1) 128 ltac:(lia)) as H3.
  pose proof (Z.mod_pos_bound (Z.of_nat N + 128 - 1) 128 ltac:(lia)) as H4.
  lia.
Qed.

(** ** Iteration of the pipeline *)

Section Iteration.

Context `{TF : TensorFlow}.

(* the shuffle buffer emits every element once *)
Lemma shuffle_buffer_Permutation {A : Type} (fuel : nat) (buffer rest : list A) (g : Rng) :
  (length buffer + length rest <= fuel)%nat ->
  (buffer = [] -> rest = []) ->
  exists out g', shuffle_buffer fuel buffer rest g = (Ok out, g') /\
                 out ≡ₚ buffer ++ rest.
Proof.
  revert buffer rest g. induction fuel as [|fuel IH]; intros buffer rest g Hfuel Hne.
  - destruct buffer; [| cbn in Hfuel; lia].
    rewrite (Hne eq_refl). exists [], g. split; reflexivity.
  - destruct buffer as [|b buffer].
    { rewrite (Hne eq_refl). exists [], g. split; reflexivity. }
    cbn [shuffle_buffer]. unfold bind at 1. unfold draw_rng.
    pose proof (random_index_range (length (b :: buffer)) g ltac:(cbn; lia)) as Hi.
    destruct (random_index (length (b :: buffer)) g) as [i g1]. cbn [fst] in Hi.
    destruct (lookup_lt_is_Some_2 (b :: buffer) i Hi) as [x Hx]. rewrite Hx.
    destruct rest as [|y rest].
    + destruct (IH (delete i (b :: buffer)) [] g1) as (out & g' & Hrun & Hperm).
      { rewrite length_delete by eauto. cbn [length] in *. lia. }
      { reflexivity. }
      unfold bind. rewrite Hrun. exists (x :: out), g'. split; [reflexivity |].
      rewrite Hperm, !app_nil_r. symmetry. apply delete_Permutation, Hx.
    + destruct (IH (<[i := y]> (b :: buffer)) rest g1) as (out & g' & Hrun & Hperm).
      { rewrite length_insert. cbn [length] in *. lia. }
      { intros Hnil. apply (f_equal length) in Hnil.
        rewrite length_insert in Hnil. discriminate Hnil. }
      unfold bind. rewrite Hrun. exists (x :: out), g'. split; [reflexivity |].
      rewrite Hperm. rewrite insert_take_drop by exact Hi.
      rewrite (delete_Permutation (b :: buffer) i x Hx) at 3.
      rewrite delete_take_drop.
      rewrite <- !app_assoc. cbn [app].
      rewrite <- !Permutation_middle. rewrite <- ?app_assoc. reflexivity.
Qed.

Lemma shuffle_Permutation {A : Type} (buffer_size : nat) (xs : list A) (g : Rng) :
  (0 < buffer_size)%nat ->
  exists out g', shuffle buffer_size xs g = (Ok out, g') /\ out ≡ₚ xs.
Proof.
  intros Hn. unfold shuffle.
  destruct (shuffle_buffer_Permutation (length xs) (take buffer_size xs)
              (drop buffer_size xs) g) as (out & g' & Hrun & Hperm).
  - rewrite length_take, length_drop. lia.
  - intros Hnil. apply (f_equal length) in Hnil. rewrite length_take in Hnil.
    destruct xs as [|x xs]; [apply drop_nil |]. cbn [length] in Hnil. lia.
  - exists out, g'. split; [exact Hrun |]. rewrite Hperm, take_drop. reflexivity.
Qed.

(* one element through the mapped function *)
Lemma call_on_element_run (r : Z) (train fixres : bool) (e : Example)
    (h w c : Z) (g : Rng) :
  r = 128 \/ r = 224 -> image_object (fst e) h w c ->
  exists o' g',
    call_on_element (fun x y => preprocess_func train r fixres x y train) e g
      = (Ok (o', snd e), g') /\
    shape (value o') = [r; r; c].
Proof.
  intros Hr Himg. unfold call_on_element.
  destruct (preprocess_func_run r train fixres 0%nat (snd e)
              {| heap := [fst e]; rng := g |} (fst e) h w c Hr eq_refl Himg)
    as (image' & s' & o' & Hrun & Hlook & Hsh).
  rewrite Hrun, Hlook. exists o', (rng s'). split; [reflexivity | exact Hsh].
Qed.

Lemma map_elements_run (r : Z) (train fixres : bool) (c : Z) (xs : list Example) (g : Rng) :
  r = 128 \/ r = 224 ->
  Forall (fun e => exists h w, image_object (fst e) h w c) xs ->
  exists ys g',
    map_elements (fun x y => preprocess_func train r fixres x y train) xs g
      = (Ok ys, g') /\
    length ys = length xs /\
    map snd ys = map snd xs /\
    Forall (fun e => shape (value (fst e)) = [r; r; c]) ys.
Proof.
  intros Hr Hall. revert g. induction Hall as [|e xs (h & w & He) _ IH]; intros g.
  - exists [], g. repeat split. constructor.
  - cbn [map_elements].
    destruct (call_on_element_run r train fixres e h w c g Hr He) as (o' & g1 & Hcall & Hsh).
    destruct (IH g1) as (ys & g' & Hrun & Hlen & Hlab & Hshs).
    unfold bind. rewrite Hcall, Hrun.
    exists ((o', snd e) :: ys), g'. split; [reflexivity |].
    cbn [length map snd]. rewrite Hlen, Hlab.
    repeat split. constructor; [exact Hsh | exact Hshs].
Qed.

Lemma stack_batches_run (sh : list Z) (bs : list (list Example)) :
  Forall (fun b => b <> []) bs ->
  Forall (Forall (fun e => shape (value (fst e)) = sh)) bs ->
  exists ts,
    stack_batches bs = Ok ts /\
    Forall2 (fun b t => shape (fst t) = Z.of_nat (length b) :: sh /\
                        snd t = map snd b) bs ts.
Proof.
  intros Hne Hsh. induction bs as [|b bs IH].
  - exists []. split; [reflexivity | constructor].
  - apply Forall_cons in Hne as [Hb Hne]. apply Forall_cons in Hsh as [Hshb Hsh].
    destruct (IH Hne Hsh) as (ts & Hts & Hall).
    destruct (stack_ok (map (fun e => value (fst e)) b) sh) as (t & Ht & Hsht).
    { destruct b; [contradiction | discriminate]. }
    { apply Forall_map. exact Hshb. }
    cbn [stack_batches]. unfold stack_batch. rewrite Ht, Hts.
    exists ((t, map snd b) :: ts). split; [reflexivity |].
    constructor; [| exact Hall]. cbn [fst snd].
    rewrite length_map in Hsht. split; [exact Hsht | reflexivity].
Qed.

(* for a supported size make_dataset returns the pipeline and has created
   its operations in order *)
Lemma make_dataset_supported (dataset : Dataset) (train : bool) (image_size : Z)
    (fixres : bool) (num_parallel_calls : Z) (ops : list DatasetOp) :
  image_size = 128 \/ image_size = 224 ->
  make_dataset dataset train image_size fixres num_parallel_calls ops =
    (Ok (Prefetch num_parallel_calls
           (Batch batch_size
              (Map (fun x y => preprocess_func train image_size fixres x y train)
                   num_parallel_calls
                   (if train then Shuffle (batch_size * 10) dataset else dataset)))),
     (ops ++ (if train then [ShuffleOp (batch_size * 10)] else []))
       ++ [MapOp num_parallel_calls] ++ [BatchOp batch_size]
       ++ [PrefetchOp num_parallel_calls]).
Proof.
  intros [-> | ->]; destruct train; unfold make_dataset; cbn [existsb];
    unfold bind, ret, dataset_shuffle, dataset_map, dataset_batch, dataset_prefetch;
    cbn; rewrite <- ?app_assoc, ?app_nil_r; reflexivity.
Qed.

Lemma elements_source (train : bool) (xs : list Example) (g : Rng) :
  exists xs' g',
    elements (if train then Shuffle (batch_size * 10) (Source xs) else Source xs) g
      = (Ok xs', g') /\
    xs' ≡ₚ xs.
Proof.
  destruct train.
  - cbn [elements]. unfold bind, ret.
    change (batch_size * 10 <=? 0) with false. cbv iota.
    apply shuffle_Permutation. vm_compute. lia.
  - exists xs, g. split; reflexivity.
Qed.

(* iteration of the pipeline over a source of non-empty images of c
   channels *)
Lemma batches_run (xs : list Example) (train : bool) (image_size : Z)
    (fixres : bool) (num_parallel_calls : Z) (c : Z) (g : Rng) :
  image_size = 128 \/ image_size = 224 ->
  Forall (fun e => exists h w, image_object (fst e) h w c) xs ->
  exists ys bs g',
    ys ≡ₚ map snd xs /\
    batches
      (Prefetch num_parallel_calls
         (Batch batch_size
            (Map (fun x y => preprocess_func train image_size fixres x y train)
                 num_parallel_calls
                 (if train then Shuffle (batch_size * 10) (Source xs) else Source xs))))
      g = (Ok bs, g') /\
    length bs = ((length xs + 128 - 1) / 128)%nat /\
    concat (map snd bs) = ys /\
    forall i b, bs !! i = Some b ->
      length (snd b) =
        (if (S i <? length bs)%nat then 128%nat
         else last_batch_size 128 (length xs)) /\
      shape (fst b) = [Z.of_nat (length (snd b)); image_size; image_size; c].
Proof.
  intros Hr Hall.
  destruct (elements_source train xs g) as (xs' & g1 & Hel & Hperm).
  assert (Hall' : Forall (fun e => exists h w, image_object (fst e) h w c) xs').
  { rewrite Hperm. exact Hall. }
  destruct (map_elements_run image_size train fixres c xs' g1 Hr Hall')
    as (ys & g2 & Hmap & Hlen & Hlab & Hsh).
  set (groups := batch_elements (Z.to_nat batch_size) [] ys).
  destruct (stack_batches_run [image_size; image_size; c] groups) as (bs & Hbs & Hrel).
  { apply batch_elements_nonempty. }
  { apply batch_elements_Forall; [constructor | exact Hsh]. }
  assert (Hn : length ys = length xs).
  { rewrite Hlen. apply Permutation_length, Hperm. }
  assert (Hcount : length groups = ((length xs + 128 - 1) / 128)%nat).
  { unfold groups. rewrite batch_elements_length by (vm_compute; lia).
    cbn [length]. rewrite Hn. reflexivity. }
  exists (map snd xs'), bs, g2.
  split; [rewrite Hperm; reflexivity |].
  split.
  { cbn [batches elements]. unfold bind at 1. unfold bind at 1. rewrite Hel, Hmap.
    change (batch_size <=? 0) with false. cbv iota. unfold lift.
    fold groups. rewrite Hbs. reflexivity. }
  split; [rewrite <- Hcount; symmetry; apply (Forall2_length _ _ _ Hrel) |].
  split.
  { rewrite <- Hlab. transitivity (map snd (concat groups)).
    - clear -Hrel.
      induction Hrel as [|b t groups bs [_ Ht] _ IH]; [reflexivity |].
      cbn [map concat]. rewrite Ht, IH, map_app. reflexivity.
    - unfold groups. rewrite batch_elements_concat. reflexivity. }
  intros i b Hb.
  destruct (Forall2_lookup_r _ _ _ _ _ Hrel Hb) as (group & Hgroup & Hshape & Hlabels).
  assert (Hsize : length (snd b) =
      (if (S i <? length bs)%nat then 128%nat else last_batch_size 128 (length xs))).
  { rewrite Hlabels, length_map.
    etransitivity;
      [apply (@batch_elements_sizes Example (Z.to_nat batch_size) [] ys i group
                ltac:(vm_compute; lia) ltac:(vm_compute; lia) Hgroup) |].
    assert (Hl : @length (list Example)
                   (@batch_elements Example (Z.to_nat batch_size) [] ys) = length bs)
      by exact (Forall2_length _ _ _ Hrel).
    rewrite Hl. cbn [length]. rewrite Hn. reflexivity. }
  split; [exact Hsize |].
  rewrite Hshape. rewrite Hlabels, length_map. reflexivity.
Qed.

(** C8. For a source of N non-empty 3-channel images and a supported
    image_size, the pipeline built by make_dataset yields ceil(N / 128)
    batches; every batch but the last holds 128 examples and the last holds
    N mod 128 of them when 128 does not divide N and 128 otherwise. The
    images of a batch of k examples are stacked to a tensor of shape
    [k, image_size, image_size, 3]. *)
Theorem make_dataset_batches (xs : list Example) (train : bool) (image_size : Z)
    (fixres : bool) (num_parallel_calls : Z) (ops : list DatasetOp) (g : Rng) :
  image_size = 128 \/ image_size = 224 ->
  Forall (fun e => exists h w, image_object (fst e) h w 3) xs ->
  exists pipeline ops' bs g',
    make_dataset (Source xs) train image_size fixres num_parallel_calls ops
      = (Ok pipeline, ops') /\
    batches pipeline g = (Ok bs, g') /\
    Z.of_nat (length bs) = Qceiling (Z.of_nat (length xs) # 128) /\
    forall i b, bs !! i = Some b ->
      length (snd b) =
        (if S i <? length bs then 128
         else if length xs mod 128 =? 0 then 128 else length xs mod 128)%nat /\
      shape (fst b) = [Z.of_nat (length (snd b)); image_size; image_size; 3].
Proof.
  intros Hr Hall.
  destruct (batches_run xs train image_size fixres num_parallel_calls 3 g Hr Hall)
    as (ys & bs & g' & _ & Hrun & Hcount & _ & Hsizes).
  eexists. eexists. exists bs, g'.
  split; [apply make_dataset_supported, Hr |].
  split; [exact Hrun |].
  split; [rewrite ceiling_div_128, Hcount; reflexivity |].
  exact Hsizes.
Qed.

End Iteration.

(** * Further properties of the notebook's code *)

Section Pipeline.

Context `{TF : TensorFlow}.

(** X1. make_dataset returns a pipeline exactly when image_size is 128 or
    224. It has then created, in this order and nothing else: a shuffle
    with a buffer of 10 batches (1280) when train is set and none otherwise,
    the map, the batch of 128 and the prefetch. *)
Theorem make_dataset_succeeds_iff (dataset : Dataset) (train : bool)
    (image_size : Z) (fixres : bool) (num_parallel_calls : Z)
    (ops : list DatasetOp) :
  ((exists pipeline,
      fst (make_dataset dataset train image_size fixres num_parallel_calls ops)
        = Ok pipeline)
   <-> image_size = 128 \/ image_size = 224) /\
  (image_size = 128 \/ image_size = 224 ->
   snd (make_dataset dataset train image_size fixres num_parallel_calls ops)
     = ops ++ (if train then [ShuffleOp 1280] else [])
           ++ [MapOp num_parallel_calls; BatchOp 128;
               PrefetchOp num_parallel_calls]).
Proof.
  split; [split |].
  - intros [pipeline Hrun].
    destruct (Z.eq_dec image_size 128) as [H128 | H128]; [left; exact H128 |].
    destruct (Z.eq_dec image_size 224) as [H224 | H224]; [right; exact H224 |].
    exfalso. revert Hrun. unfold make_dataset, smaller_size, bigger_size.
    cbn [existsb].
    replace (image_size =? 128) with false by (symmetry; apply Z.eqb_neq; exact H128).
    replace (image_size =? 224) with false by (symmetry; apply Z.eqb_neq; exact H224).
    discriminate.
  - intros Hr. rewrite (make_dataset_supported _ _ _ _ _ _ Hr). eexists. reflexivity.
  - intros Hr. rewrite (make_dataset_supported _ _ _ _ _ _ Hr). cbn [snd].
    rewrite <- !app_assoc. destruct train; reflexivity.
Qed.

Lemma batch_elements_map {A B : Type} (f : A -> B) (n : nat) (cur xs : list A) :
  map (map f) (batch_elements n cur xs) = batch_elements n (map f cur) (map f xs).
Proof.
  revert cur. induction xs as [|x xs IH]; intros cur; cbn [batch_elements map].
  - destruct cur; reflexivity.
  - replace (map f cur ++ [f x]) with (map f (cur ++ [x]))
      by (rewrite map_app; reflexivity).
    rewrite !length_map.
    destruct (length (cur ++ [x]) =? n)%nat; cbn [map]; rewrite IH; reflexivity.
Qed.

(* iteration of an evaluation pipeline: no shuffle, the elements are mapped
   and grouped in the order of the source *)
Lemma batches_eval_run (xs : list Example) (image_size : Z) (fixres : bool)
    (num_parallel_calls : Z) (c : Z) (g : Rng) :
  image_size = 128 \/ image_size = 224 ->
  Forall (fun e => exists h w, image_object (fst e) h w c) xs ->
  exists bs g',
    batches
      (Prefetch num_parallel_calls
         (Batch batch_size
            (Map (fun x y => preprocess_func false image_size fixres x y false)
                 num_parallel_calls (Source xs))))
      g = (Ok bs, g') /\
    map snd bs = batch_elements 128 [] (map snd xs) /\
    Forall (fun b => shape (fst b)
                     = [Z.of_nat (length (snd b)); image_size; image_size; c]) bs.
Proof.
  intros Hr Hall.
  destruct (map_elements_run image_size false fixres c xs g Hr Hall)
    as (ys & g2 & Hmap & Hlen & Hlab & Hsh).
  destruct (stack_batches_run [image_size; image_size; c]
              (batch_elements (Z.to_nat batch_size) [] ys)) as (bs & Hbs & Hrel).
  { apply batch_elements_nonempty. }
  { apply batch_elements_Forall; [constructor | exact Hsh]. }
  exists bs, g2. split.
  { cbn [batches elements]. unfold bind at 1. unfold bind at 1. unfold ret at 1.
    rewrite Hmap. change (batch_size <=? 0) with false. cbv iota. unfold lift.
    rewrite Hbs. reflexivity. }
  split.
  - rewrite <- Hlab.
    transitivity (map (map snd) (batch_elements (Z.to_nat batch_size) [] ys));
      [| exact (batch_elements_map snd (Z.to_nat batch_size) [] ys)].
    clear -Hrel.
    induction Hrel as [|b t groups bs [_ Ht] _ IH]; [reflexivity |].
    cbn [map]. rewrite Ht, IH. reflexivity.
  - clear -Hrel.
    induction Hrel as [|b t groups bs [Hsh Ht] _ IH]; constructor; [| exact IH].
    rewrite Hsh, Ht, length_map. reflexivity.
Qed.

(** X2. An evaluation pipeline (train false) over well-formed 3-channel
    images yields the labels of the source in their order, grouped 128 at a
    time, and every batch stacks as many images as it has labels. *)
Theorem eval_pipeline_labels_in_order (xs : list Example) (image_size : Z)
    (fixres : bool) (num_parallel_calls : Z) (ops : list DatasetOp) (g : Rng) :
  image_size = 128 \/ image_size = 224 ->
  Forall (fun e => exists h w, image_object (fst e) h w 3) xs ->
  exists pipeline bs g',
    fst (make_dataset (Source xs) false image_size fixres num_parallel_calls ops)
      = Ok pipeline /\
    batches pipeline g = (Ok bs, g') /\
    map snd bs = batch_elements 128 [] (map snd xs) /\
    concat (map snd bs) = map snd xs /\
    Forall (fun b => shape (fst b)
                     = [Z.of_nat (length (snd b)); image_size; image_size; 3]) bs.
Proof.
  intros Hr Hall.
  destruct (batches_eval_run xs image_size fixres num_parallel_calls 3 g Hr Hall)
    as (bs & g' & Hrun & Hlabels & Hshapes).
  eexists. exists bs, g'.
  split; [rewrite (make_dataset_supported _ _ _ _ _ _ Hr); reflexivity |].
  split; [exact Hrun |].
  split; [exact Hlabels |].
  split; [| exact Hshapes].
  rewrite Hlabels, batch_elements_concat. reflexivity.
Qed.

(** X3. A training pipeline (train true) over well-formed 3-channel images
    neither drops nor repeats an example: the labels of its batches, taken
    together, are a permutation of the labels of the source. *)
Theorem train_pipeline_labels_permuted (xs : list Example) (image_size : Z)
    (fixres : bool) (num_parallel_calls : Z) (ops : list DatasetOp) (g : Rng) :
  image_size = 128 \/ image_size = 224 ->
  Forall (fun e => exists h w, image_object (fst e) h w 3) xs ->
  exists pipeline bs g',
    fst (make_dataset (Source xs) true image_size fixres num_parallel_calls ops)
      = Ok pipeline /\
    batches pipeline g = (Ok bs, g') /\
    concat (map snd bs) ≡ₚ map snd xs.
Proof.
  intros Hr Hall.
  destruct (batches_run xs true image_size fixres num_parallel_calls 3 g Hr Hall)
    as (ys & bs & g' & Hperm & Hrun & _ & Hconcat & _).
  eexists. exists bs, g'.
  split; [rewrite (make_dataset_supported _ _ _ _ _ _ Hr); reflexivity |].
  split; [exact Hrun |].
  rewrite Hconcat. exact Hperm.
Qed.

End Pipeline.

(** ** Evaluation mode and the random generator *)

Section Generator.

Context `{TF : TensorFlow}.

Lemma rng_free_bind {A B : Type} (m : M PpState A) (k : A -> M PpState B) :
  rng_free m -> (forall a, rng_free (k a)) -> rng_free (bind m k).
Proof.
  intros [Hd Hi] Hk. split.
  - intros s. unfold bind. specialize (Hd s).
    destruct (m s) as [[a|e] s1]; cbn [snd] in *; [| exact Hd].
    rewrite (proj1 (Hk a) s1). exact Hd.
  - intros s1 s2 Hh. unfold bind. destruct (Hi s1 s2 Hh) as [Hf Hhp].
    destruct (m s1) as [r1 s1'], (m s2) as [r2 s2']. cbn [fst snd] in *. subst r2.
    destruct r1 as [a|e]; [exact (proj2 (Hk a) s1' s2' Hhp) |].
    split; [reflexivity | exact Hhp].
Qed.

Lemma rng_free_ret {A : Type} (a : A) : rng_free (ret a : M PpState A).
Proof. split; [intros s; reflexivity | intros s1 s2 Hh; split; [reflexivity | exact Hh]]. Qed.

Lemma rng_free_raise {A : Type} (e : exn) : rng_free (raise e : M PpState A).
Proof. split; [intros s; reflexivity | intros s1 s2 Hh; split; [reflexivity | exact Hh]]. Qed.

Lemma rng_free_lift {A : Type} (r : result A) : rng_free (lift r : M PpState A).
Proof. split; [intros s; reflexivity | intros s1 s2 Hh; split; [reflexivity | exact Hh]]. Qed.

Lemma rng_free_deref (a : addr) : rng_free (deref a).
Proof.
  split.
  - intros s. unfold deref. destruct (heap s !! a); reflexivity.
  - intros s1 s2 Hh. unfold deref. rewrite Hh.
    destruct (heap s2 !! a); split; first [reflexivity | exact Hh].
Qed.

Lemma rng_free_new (t : Tensor) (st : list (option Z)) : rng_free (new t st).
Proof.
  split.
  - intros s. reflexivity.
  - intros s1 s2 Hh. unfold new. cbn [fst snd heap]. rewrite Hh. split; reflexivity.
Qed.

Lemma rng_free_tf_shape (image : addr) : rng_free (tf_shape image).
Proof.
  unfold tf_shape. apply rng_free_bind; [apply rng_free_deref |].
  intros o. apply rng_free_ret.
Qed.

Lemma rng_free_tf_slice (image : addr) (begin size : list Z) :
  rng_free (tf_slice image begin size).
Proof.
  unfold tf_slice. apply rng_free_bind; [apply rng_free_deref |].
  intros o. apply rng_free_bind; [apply rng_free_lift |].
  intros t. apply rng_free_new.
Qed.

Lemma rng_free_tf_image_resize (image : addr) (size : list Z) :
  rng_free (tf_image_resize image size).
Proof.
  unfold tf_image_resize. apply rng_free_bind; [apply rng_free_deref |].
  intros o. apply rng_free_bind; [apply rng_free_lift |].
  intros t. apply rng_free_new.
Qed.

Lemma rng_free_getitem_newaxis (image : addr) : rng_free (getitem_newaxis image).
Proof.
  unfold getitem_newaxis. apply rng_free_bind; [apply rng_free_deref |].
  intros o. apply rng_free_new.
Qed.

Lemma rng_free_getitem_0 (x : addr) : rng_free (getitem_0 x).
Proof.
  unfold getitem_0. apply rng_free_bind; [apply rng_free_deref |].
  intros o. apply rng_free_bind; [apply rng_free_lift |].
  intros t. apply rng_free_new.
Qed.

Lemma rng_free_CenterCrop (height width : Z) (inputs : addr) :
  rng_free (CenterCrop height width inputs).
Proof.
  unfold CenterCrop. apply rng_free_bind; [apply rng_free_tf_shape |].
  intros sh.
  destruct sh as [|? [|img_hd [|img_wd [|? [|? ?]]]]]; try apply rng_free_raise.
  destruct (_ || _); [apply rng_free_raise | apply rng_free_tf_slice].
Qed.

Lemma rng_free_preprocess_func_eval (train : bool) (image_size : Z) (fixres : bool)
    (image : addr) (label : Label) :
  rng_free (preprocess_func train image_size fixres image label false).
Proof.
  assert (Hpp : rng_free (_pp image_size image label false)).
  { unfold _pp. apply rng_free_bind; [apply rng_free_tf_image_resize |].
    intros image1. apply rng_free_ret. }
  unfold preprocess_func, preprocess_initial.
  destruct (image_size =? smaller_size); [exact Hpp |].
  destruct (negb fixres && (image_size =? bigger_size)); [exact Hpp |].
  unfold preprocess_finetune.
  apply rng_free_bind; [apply rng_free_tf_image_resize |]. intros image1.
  apply rng_free_bind; [apply rng_free_ret |]. intros image2.
  apply rng_free_bind; [apply rng_free_getitem_newaxis |]. intros x.
  apply rng_free_bind; [apply rng_free_CenterCrop |]. intros x'.
  apply rng_free_bind; [apply rng_free_getitem_0 |]. intros image3.
  apply rng_free_ret.
Qed.

(** X4. Called with train false, the selected preprocessing function does
    not touch the random generator, for every image_size and fixres and
    whether it returns or raises: two states with the same objects give the
    same result and leave the same objects, and the generator is left where
    it was. *)
Theorem eval_preprocessing_ignores_generator (train : bool) (image_size : Z)
    (fixres : bool) (image : addr) (label : Label) (s1 s2 : PpState) :
  heap s1 = heap s2 ->
  let run := preprocess_func train image_size fixres image label false in
  fst (run s1) = fst (run s2) /\
  heap (snd (run s1)) = heap (snd (run s2)) /\
  rng (snd (run s1)) = rng s1 /\ rng (snd (run s2)) = rng s2.
Proof.
  intros Hh run.
  destruct (rng_free_preprocess_func_eval train image_size fixres image label)
    as [Hd Hi].
  destruct (Hi s1 s2 Hh) as [Hf Hhp].
  repeat split; [exact Hf | exact Hhp | apply Hd | apply Hd].
Qed.

Lemma call_on_element_eval (train : bool) (image_size : Z) (fixres : bool)
    (e : Example) (g1 g2 : Rng) :
  let f := fun x y => preprocess_func train image_size fixres x y false in
  fst (call_on_element f e g1) = fst (call_on_element f e g2) /\
  snd (call_on_element f e g1) = g1.
Proof.
  intros f. unfold call_on_element, f.
  destruct (rng_free_preprocess_func_eval train image_size fixres 0%nat (snd e))
    as [Hd Hi].
  pose proof (Hd {| heap := [fst e]; rng := g1 |}) as Hg1.
  destruct (Hi {| heap := [fst e]; rng := g1 |} {| heap := [fst e]; rng := g2 |} eq_refl)
    as [Hf Hhp].
  destruct (preprocess_func train image_size fixres 0%nat (snd e) false
              {| heap := [fst e]; rng := g1 |}) as [r1 s1].
  destruct (preprocess_func train image_size fixres 0%nat (snd e) false
              {| heap := [fst e]; rng := g2 |}) as [r2 s2].
  cbn [fst snd rng] in *. subst r2.
  destruct r1 as [[a y]|err]; [| split; [reflexivity | exact Hg1]].
  rewrite Hhp. destruct (heap s2 !! a); (split; [reflexivity | exact Hg1]).
Qed.

Lemma map_elements_eval (train : bool) (image_size : Z) (fixres : bool)
    (xs : list Example) (g1 g2 : Rng) :
  let f := fun x y => preprocess_func train image_size fixres x y false in
  fst (map_elements f xs g1) = fst (map_elements f xs g2) /\
  snd (map_elements f xs g1) = g1.
Proof.
  intros f. induction xs as [|x xs IH]; [split; reflexivity |].
  cbn [map_elements]. unfold bind at 1 3 5.
  destruct (call_on_element_eval train image_size fixres x g1 g2) as [Hf Hg1].
  destruct (call_on_element_eval train image_size fixres x g2 g2) as [_ Hg2].
  fold f in Hf, Hg1, Hg2.
  destruct (call_on_element f x g1) as [r1 g1'].
  destruct (call_on_element f x g2) as [r2 g2'].
  cbn [fst snd] in *. subst r2 g1' g2'.
  destruct r1 as [y|err]; [| split; reflexivity].
  unfold bind. destruct IH as [IHf IHg].
  destruct (map_elements f xs g1) as [q1 h1].
  destruct (map_elements f xs g2) as [q2 h2].
  cbn [fst snd] in *. subst q2 h1.
  destruct q1; split; reflexivity.
Qed.

(** X5. Iterating an evaluation pipeline built by make_dataset (train
    false, supported size) is deterministic whatever the images are: the
    batches, or the exception, are the same for every state of the random
    generator, and the generator is left where it was. *)
Theorem eval_pipeline_deterministic (xs : list Example) (image_size : Z)
    (fixres : bool) (num_parallel_calls : Z) (ops : list DatasetOp) :
  image_size = 128 \/ image_size = 224 ->
  exists pipeline,
    fst (make_dataset (Source xs) false image_size fixres num_parallel_calls ops)
      = Ok pipeline /\
    forall g1 g2,
      fst (batches pipeline g1) = fst (batches pipeline g2) /\
      snd (batches pipeline g1) = g1.
Proof.
  intros Hr. eexists.
  split; [rewrite (make_dataset_supported _ _ _ _ _ _ Hr); reflexivity |].
  intros g1 g2. cbn [batches elements]. unfold bind at 1 3 5.
  unfold bind at 1 2 3. unfold ret at 1 2 3.
  destruct (map_elements_eval false image_size fixres xs g1 g2) as [Hf Hg].
  cbv zeta in Hf, Hg.
  destruct (map_elements _ xs g1) as [r1 h1].
  destruct (map_elements _ xs g2) as [r2 h2].
  cbn [fst snd] in *. subst r2 h1.
  destruct r1 as [ys|err]; [| split; reflexivity].
  change (batch_size <=? 0) with false. cbv iota. split; reflexivity.
Qed.

End Generator.

(** ** What a call returns *)

Section Returned.

Context `{TF : TensorFlow}.

Lemma returns_fresh_preprocess_func (h0 : list TensorObj) (train : bool)
    (image_size : Z) (fixres : bool) (image : addr) (label : Label) (train' : bool) :
  keeps h0 (preprocess_func train image_size fixres image label train')
    (fun r => fresh h0 (fst r)).
Proof.
  assert (Hpp : keeps h0 (_pp image_size image label train') (fun r => fresh h0 (fst r))).
  { unfold _pp. destruct train'.
    - eapply keeps_bind; [apply keeps_shape_last |]. intros channels _.
      eapply keeps_bind; [apply keeps_tf_shape |]. intros image_shape _.
      eapply keeps_bind; [apply keeps_sample |]. intros [[begin size] bb] _.
      eapply keeps_bind; [apply keeps_tf_slice |]. intros image1 Hfresh.
      eapply keeps_bind; [apply keeps_set_shape, Hfresh |]. intros _ _.
      eapply keeps_bind; [apply keeps_tf_image_resize |]. intros image2 _.
      eapply keeps_bind; [apply keeps_random_flip |]. intros image3 Hfresh3.
      apply keeps_ret. exact Hfresh3.
    - eapply keeps_bind; [apply keeps_tf_image_resize |]. intros image1 Hfresh1.
      apply keeps_ret. exact Hfresh1. }
  unfold preprocess_func, preprocess_initial.
  destruct (image_size =? smaller_size); [exact Hpp |].
  destruct (negb fixres && (image_size =? bigger_size)); [exact Hpp |].
  unfold preprocess_finetune.
  eapply keeps_bind; [apply keeps_tf_image_resize |]. intros image1 _.
  eapply keeps_bind with (R := fun _ => True).
  { destruct train'.
    - eapply keeps_weaken; [apply keeps_random_flip | intros; exact I].
    - apply keeps_ret. exact I. }
  intros image2 _.
  eapply keeps_bind; [apply keeps_getitem_newaxis |]. intros x _.
  eapply keeps_bind; [apply keeps_CenterCrop |]. intros x' _.
  eapply keeps_bind; [apply keeps_getitem_0 |]. intros image3 Hfresh3.
  apply keeps_ret. exact Hfresh3.
Qed.

(** X6. The image a preprocessing call returns is always an object created
    by that call: its name was bound to nothing before, so it is never the
    input image itself, in any strategy and in evaluation mode too. *)
Theorem preprocess_returns_new_object (train : bool) (image_size : Z)
    (fixres : bool) (image : addr) (label : Label) (train' : bool) (s : PpState)
    (image' : addr) (label' : Label) :
  fst (preprocess_func train image_size fixres image label train' s)
    = Ok (image', label') ->
  heap s !! image' = None /\ (is_Some (heap s !! image) -> image' <> image).
Proof.
  intros Hrun.
  pose proof (returns_fresh_preprocess_func (heap s) train image_size fixres image
                label train' s ltac:(reflexivity)) as Hk.
  destruct (preprocess_func train image_size fixres image label train' s)
    as [[[a y]|e] s']; [| discriminate Hrun].
  cbn [fst] in Hrun. injection Hrun as -> ->.
  destruct Hk as [_ Hfresh]. unfold fresh in Hfresh. cbn [fst] in Hfresh.
  split; [apply lookup_ge_None; exact Hfresh |].
  intros Hbound Heq. apply lookup_lt_is_Some in Hbound. lia.
Qed.

(** X7. Both branches of [_pp] return an image whose static shape is
    [image_size, image_size, channels], with the static channel dimension
    of the input: in the training branch the slice forgets it and
    [set_shape] puts it back before the resize. *)
Theorem _pp_static_shape (image_size : Z) (image : addr) (label : Label)
    (train : bool) (s : PpState) (o : TensorObj) (h w c : Z) (ch : option Z) :
  heap s !! image = Some o -> image_object o h w c -> 0 < image_size ->
  last (static_shape o) = Some ch ->
  exists image' s' o',
    preprocess_initial train image_size image label train s
      = (Ok (image', label), s') /\
    heap s' !! image' = Some o' /\
    static_shape o' = [Some image_size; Some image_size; ch].
Proof.
  intros Ha Himg Hpos Hlast. unfold preprocess_initial.
  destruct (image_object_static _ _ _ _ Himg) as (sa & sb & ch' & Hst).
  assert (ch' = ch) by (rewrite Hst in Hlast; cbn in Hlast; congruence). subst ch'.
  destruct train.
  - destruct (_pp_train_run image_size image label s o h w c Ha Himg Hpos)
      as (y & x & bh & bw & bb & g1 & cropped & resized & ch2 &
          _ & _ & _ & _ & _ & _ & Hlast2 & Hrun).
    assert (ch2 = ch) by congruence. subst ch2.
    eexists. eexists. eexists.
    split; [exact Hrun | split; [apply lookup_new3 | reflexivity]].
  - destruct (_pp_eval_run image_size image label s o h w c Ha Himg Hpos)
      as (resized & _ & _ & Hrun).
    eexists. eexists. eexists.
    split; [exact Hrun | split; [apply lookup_new |]].
    cbn [static_shape]. rewrite Hst. reflexivity.
Qed.

End Returned.

(** ** The six datasets *)

Section Prepared.

Context `{TF : TensorFlow}.

Lemma prepare_datasets_run (train_dataset val_dataset : Dataset)
    (ops : list DatasetOp) :
  let pipeline := fun dataset train image_size fixres =>
    Prefetch auto
      (Batch batch_size
         (Map (fun x y => preprocess_func train image_size fixres x y train) auto
              (if train then Shuffle (batch_size * 10) dataset else dataset))) in
  fst (prepare_datasets train_dataset val_dataset ops) =
    Ok {| initial_train_dataset := pipeline train_dataset true smaller_size true;
          initial_val_dataset := pipeline val_dataset false smaller_size true;
          finetune_train_dataset := pipeline train_dataset true bigger_size true;
          finetune_val_dataset := pipeline val_dataset false bigger_size true;
          vanilla_train_dataset := pipeline train_dataset true bigger_size false;
          vanilla_val_dataset := pipeline val_dataset false bigger_size false |}.
Proof.
  intros pipeline. unfold prepare_datasets.
  do 6 (erewrite bind_ok
          by (apply make_dataset_supported; first [left; reflexivity | right; reflexivity])).
  reflexivity.
Qed.

(** X8. The cell that prepares the datasets never raises, and over a
    validation split of well-formed 3-channel images its three validation
    pipelines yield the same labels, batch for batch and in the order of
    the split; the images come in batches of shape [k, 128, 128, 3] for the
    initial dataset and [k, 224, 224, 3] for the fine-tune and the vanilla
    one. *)
Theorem validation_datasets_agree (train_dataset : Dataset) (xs : list Example)
    (ops : list DatasetOp) (g : Rng) :
  Forall (fun e => exists h w, image_object (fst e) h w 3) xs ->
  exists ds initial finetune vanilla,
    fst (prepare_datasets train_dataset (Source xs) ops) = Ok ds /\
    fst (batches (initial_val_dataset ds) g) = Ok initial /\
    fst (batches (finetune_val_dataset ds) g) = Ok finetune /\
    fst (batches (vanilla_val_dataset ds) g) = Ok vanilla /\
    map snd initial = batch_elements 128 [] (map snd xs) /\
    map snd finetune = map snd initial /\
    map snd vanilla = map snd initial /\
    Forall (fun b => shape (fst b) = [Z.of_nat (length (snd b)); 128; 128; 3]) initial /\
    Forall (fun b => shape (fst b) = [Z.of_nat (length (snd b)); 224; 224; 3]) finetune /\
    Forall (fun b => shape (fst b) = [Z.of_nat (length (snd b)); 224; 224; 3]) vanilla.
Proof.
  intros Hall.
  destruct (batches_eval_run xs 128 true auto 3 g (or_introl eq_refl) Hall)
    as (b1 & g1 & Hrun1 & Hlab1 & Hsh1).
  destruct (batches_eval_run xs 224 true auto 3 g (or_intror eq_refl) Hall)
    as (b2 & g2 & Hrun2 & Hlab2 & Hsh2).
  destruct (batches_eval_run xs 224 false auto 3 g (or_intror eq_refl) Hall)
    as (b3 & g3 & Hrun3 & Hlab3 & Hsh3).
  eexists. exists b1, b2, b3.
  split; [apply prepare_datasets_run |].
  cbn [initial_val_dataset finetune_val_dataset vanilla_val_dataset].
  split; [unfold smaller_size; rewrite Hrun1; reflexivity |].
  split; [unfold bigger_size; rewrite Hrun2; reflexivity |].
  split; [unfold bigger_size; rewrite Hrun3; reflexivity |].
  split; [exact Hlab1 |].
  split; [rewrite Hlab1; exact Hlab2 |].
  split; [rewrite Hlab1; exact Hlab3 |].
  split; [exact Hsh1 | split; [exact Hsh2 | exact Hsh3]].
Qed.

End Prepared.

(** ** Freezing the layers *)

Lemma set_each_from (value : bool) (pre post : list Layer) :
  foldl (fun ls i => alter (set_trainable value) i ls) (pre ++ post)
        (seq (length pre) (length post))
    = pre ++ map (set_trainable value) post.
Proof.
  revert pre. induction post as [|l post IH]; intros pre; [reflexivity |].
  cbn [length seq foldl map].
  rewrite alter_app_r_alt by lia. rewrite Nat.sub_diag. cbn [alter list_alter].
  replace (pre ++ set_trainable value l :: post)
    with ((pre ++ [set_trainable value l]) ++ post)
    by (rewrite <- app_assoc; reflexivity).
  replace (S (length pre)) with (length (pre ++ [set_trainable value l]))
    by (rewrite length_app; cbn [length]; lia).
  rewrite IH, <- app_assoc. reflexivity.
Qed.

(* the loop sets the flag of every layer and nothing else *)
Lemma set_each_trainable_map (value : bool) (layers : list Layer) :
  set_each_trainable value layers = map (set_trainable value) layers.
Proof. exact (set_each_from value [] layers). Qed.

Lemma get_layer_set_trainable (value : bool) (layer_name : string) (layers : list Layer) :
  get_layer layer_name (map (set_trainable value) layers) = get_layer layer_name layers.
Proof.
  induction layers as [|l layers IH]; [reflexivity |].
  cbn [map get_layer set_trainable name]. rewrite IH. reflexivity.
Qed.

Lemma get_layer_Some (layer_name : string) (layers : list Layer) (i : nat) :
  get_layer layer_name layers = Some i ->
  (exists l, layers !! i = Some l /\ name l = layer_name) /\
  (forall j l, (j < i)%nat -> layers !! j = Some l -> name l <> layer_name).
Proof.
  revert i. induction layers as [|l0 layers IH]; intros i; [discriminate |].
  cbn [get_layer]. destruct (String.eqb_spec (name l0) layer_name) as [Heq | Hne].
  - intros [= <-]. split; [exists l0; split; [reflexivity | exact Heq] |].
    intros j l Hj. lia.
  - destruct (get_layer layer_name layers) as [i'|]; [| discriminate].
    intros [= <-]. destruct (IH i' eq_refl) as [Hfound Hfirst].
    split; [exact Hfound |].
    intros [|j] l Hj; cbn.
    + intros [= <-]. exact Hne.
    + apply Hfirst. lia.
Qed.

Lemma get_layer_None (layer_name : string) (layers : list Layer) :
  get_layer layer_name layers = None <->
  Forall (fun l => name l <> layer_name) layers.
Proof.
  induction layers as [|l0 layers IH]; [split; [constructor | reflexivity] |].
  cbn [get_layer]. destruct (String.eqb_spec (name l0) layer_name) as [Heq | Hne].
  - split; [discriminate |]. intros Hall. inversion Hall; contradiction.
  - destruct (get_layer layer_name layers) as [i|]; cbn [option_map].
    + split; [discriminate |]. intros Hall. inversion Hall as [|? ? _ Hrest].
      apply IH in Hrest. discriminate Hrest.
    + split; [| reflexivity]. intros _. constructor; [exact Hne | apply IH; reflexivity].
Qed.

(** X9. When the model has a third layer that is itself a model and whose
    layers include one named "post_bn", the freezing cell succeeds and
    leaves, among the layers of that third layer, exactly the first one
    named "post_bn" trainable; their names and number are unchanged, and
    the third layer's own flag and every other layer of the model, the
    classification layer among them, are left as they were. *)
Theorem freeze_leaves_only_post_bn (smaller_res_model : list Block)
    (base : Block) (layers : list Layer) (i : nat) :
  smaller_res_model !! 2%nat = Some base ->
  sublayers base = Some layers ->
  get_layer "post_bn" layers = Some i ->
  exists frozen,
    freeze_for_finetuning smaller_res_model
      = (inr tt,
         <[2%nat := {| block := block base; sublayers := Some frozen |}]>
           smaller_res_model) /\
    length frozen = length layers /\
    (forall j l, layers !! j = Some l ->
       frozen !! j = Some {| name := name l; trainable := bool_decide (j = i) |}) /\
    (exists l, layers !! i = Some l /\ name l = "post_bn"%string) /\
    (forall j, j <> 2%nat ->
       <[2%nat := {| block := block base; sublayers := Some frozen |}]>
         smaller_res_model !! j
         = smaller_res_model !! j).
Proof.
  intros Hbase Hsub Hget. unfold freeze_for_finetuning. rewrite Hbase, Hsub.
  rewrite set_each_trainable_map, get_layer_set_trainable, Hget.
  eexists. split; [reflexivity |].
  split; [rewrite length_alter, length_map; reflexivity |].
  split; [| split; [exact (proj1 (get_layer_Some _ _ _ Hget)) |]].
  - intros j l Hj. destruct (decide (j = i)) as [-> | Hne].
    + rewrite list_lookup_alter_eq, list_lookup_fmap, Hj.
      rewrite bool_decide_eq_true_2 by reflexivity. reflexivity.
    + rewrite list_lookup_alter_ne by congruence.
      rewrite list_lookup_fmap, Hj.
      rewrite bool_decide_eq_false_2 by exact Hne. reflexivity.
  - intros j Hj. apply list_lookup_insert_ne. congruence.
Qed.

(** X10. The freezing cell fails in three ways. On a model of fewer than
    three layers it raises the index error and changes nothing. When the
    third layer is not a model it has no attribute [layers]: the attribute
    error is raised before the loop and nothing is changed. When the third
    layer is a model without a layer named "post_bn", get_layer raises
    after the loop has run: every layer of the third layer is then frozen
    and none is trainable. In every other case the cell succeeds. *)
Theorem freeze_failures (smaller_res_model : list Block) :
  (smaller_res_model !! 2%nat = None ->
   freeze_for_finetuning smaller_res_model = (inl IndexError, smaller_res_model)) /\
  (forall base,
     smaller_res_model !! 2%nat = Some base ->
     sublayers base = None ->
     freeze_for_finetuning smaller_res_model
       = (inl AttributeError, smaller_res_model)) /\
  (forall base layers,
     smaller_res_model !! 2%nat = Some base ->
     sublayers base = Some layers ->
     Forall (fun l => name l <> "post_bn"%string) layers ->
     freeze_for_finetuning smaller_res_model
       = (inl (NoSuchLayer "post_bn"),
          <[2%nat := {| block := block base;
                        sublayers := Some (map (set_trainable false) layers) |}]>
            smaller_res_model)) /\
  (forall e, fst (freeze_for_finetuning smaller_res_model) = inl e ->
     (e = IndexError /\ smaller_res_model !! 2%nat = None) \/
     (e = AttributeError /\
      exists base, smaller_res_model !! 2%nat = Some base /\ sublayers base = None) \/
     (e = NoSuchLayer "post_bn" /\
      exists base layers,
        smaller_res_model !! 2%nat = Some base /\ sublayers base = Some layers /\
        Forall (fun l => name l <> "post_bn"%string) layers)).
Proof.
  split; [| split; [| split]].
  - intros Hnone. unfold freeze_for_finetuning. rewrite Hnone. reflexivity.
  - intros base Hbase Hsub. unfold freeze_for_finetuning. rewrite Hbase, Hsub.
    reflexivity.
  - intros base layers Hbase Hsub Hall. unfold freeze_for_finetuning.
    rewrite Hbase, Hsub.
    rewrite set_each_trainable_map, get_layer_set_trainable.
    rewrite (proj2 (get_layer_None _ _) Hall). reflexivity.
  - intros e. unfold freeze_for_finetuning.
    destruct (smaller_res_model !! 2%nat) as [base|] eqn:Hbase.
    + destruct (sublayers base) as [layers|] eqn:Hsub.
      * rewrite set_each_trainable_map, get_layer_set_trainable.
        destruct (get_layer "post_bn" layers) as [i|] eqn:Hget; [discriminate |].
        intros [= <-]. right. right. split; [reflexivity |].
        exists base, layers. repeat split; try assumption.
        apply get_layer_None, Hget.
      * intros [= <-]. right. left. split; [reflexivity |].
        exists base. split; [reflexivity | exact Hsub].
    + intros [= <-]. left. split; reflexivity.
Qed.

(** ** Visualizing a batch *)

Section Visualizing.

Context `{TF : TensorFlow}.

Variable getitem : Tensor -> Z -> result Tensor.
Variable astype_int : Tensor -> Tensor.

(* indexing the leading axis: within bounds it returns the item, beyond the
   end it raises *)
Hypothesis getitem_ok : forall t d sh n,
  shape t = d :: sh -> 0 <= n < d ->
  exists t', getitem t n = Ok t' /\ shape t' = sh.
Hypothesis getitem_out_of_range : forall t d sh n,
  shape t = d :: sh -> d <= n ->
  getitem t n = Raise InvalidArgumentError.

(* one turn of the loop of [visualize_dataset] *)
Let show (batch_images : Tensor) (n : Z) : M (list PlotEvent) unit :=
  let! _ := emit (Subplot 5 5 (n + 1)) in
  let! image := lift (getitem batch_images n) in
  let! _ := emit (Imshow (astype_int image)) in
  emit AxisOff.

Lemma for_each_app {S : Type} (xs ys : list Z) (body : Z -> M S unit) (s : S) :
  for_each (xs ++ ys) body s
    = bind (for_each xs body) (fun _ => for_each ys body) s.
Proof.
  revert s. induction xs as [|x xs IH]; intros s; [reflexivity |].
  cbn [app for_each]. unfold bind at 1 2 3.
  destruct (body x s) as [[[]|e] s1]; [| reflexivity].
  rewrite IH. reflexivity.
Qed.

Lemma for_each_drawn (batch_images : Tensor) (images : list Tensor)
    (start : nat) (out : list PlotEvent) :
  (forall j t, images !! j = Some t ->
     getitem batch_images (Z.of_nat (start + j)) = Ok t) ->
  for_each (map Z.of_nat (seq start (length images))) (show batch_images) out
    = (Ok tt, out ++ drawn astype_int (Z.of_nat start) images).
Proof.
  revert start out. induction images as [|t images IH]; intros start out Hitems.
  - cbn. rewrite app_nil_r. reflexivity.
  - cbn [length seq map for_each drawn].
    pose proof (Hitems 0%nat t eq_refl) as Ht. rewrite Nat.add_0_r in Ht.
    unfold bind at 1. unfold show at 1. unfold bind, emit, lift. rewrite Ht.
    rewrite IH.
    + rewrite Nat2Z.inj_succ, <- Z.add_1_r. rewrite <- !app_assoc. reflexivity.
    + intros j t' Hj. specialize (Hitems (S j) t' Hj).
      replace (S start + j)%nat with (start + S j)%nat by lia. exact Hitems.
Qed.

Lemma items_exist (batch_images : Tensor) (k : Z) (sh : list Z) (n start : nat) :
  shape batch_images = k :: sh -> Z.of_nat (start + n) <= k ->
  exists images,
    length images = n /\
    forall j t, images !! j = Some t ->
      getitem batch_images (Z.of_nat (start + j)) = Ok t /\ shape t = sh.
Proof.
  intros Hsh. revert start. induction n as [|n IH]; intros start Hk.
  - exists []. split; [reflexivity |]. intros j t Hj. discriminate Hj.
  - destruct (getitem_ok batch_images k sh (Z.of_nat start) Hsh ltac:(lia))
      as (t0 & Ht0 & Hsh0).
    destruct (IH (S start) ltac:(lia)) as (images & Hlen & Hitems).
    exists (t0 :: images). split; [cbn [length]; rewrite Hlen; reflexivity |].
    intros [|j] t Hj.
    + injection Hj as <-. rewrite Nat.add_0_r. split; assumption.
    + replace (start + S j)%nat with (S start + j)%nat by lia.
      apply Hitems. exact Hj.
Qed.

(** X11. On a batch of at least 25 images [visualize_dataset] returns, and
    what it has drawn is one figure of 10 x 10, then for n = 0 .. 24 the
    subplot n + 1 of a 5 x 5 grid with the image [batch_images[n]] and its
    axes turned off, then the show and the print of the batch shape; later
    images of the batch are not looked at. *)
Theorem visualize_dataset_draws_25 (batch_images : Tensor) (k : Z) (sh : list Z)
    (out : list PlotEvent) :
  shape batch_images = k :: sh -> 25 <= k ->
  exists images,
    length images = 25%nat /\
    (forall j t, images !! j = Some t ->
       getitem batch_images (Z.of_nat j) = Ok t /\ shape t = sh) /\
    visualize_dataset getitem astype_int batch_images out
      = (Ok tt,
         out ++ [Figure 10 10] ++ drawn astype_int 0 images
             ++ [Show; Print (k :: sh)]).
Proof.
  intros Hsh Hk.
  destruct (items_exist batch_images k sh 25 0 Hsh ltac:(lia))
    as (images & Hlen & Hitems).
  exists images. split; [exact Hlen | split; [exact Hitems |]].
  unfold visualize_dataset. unfold bind at 1. unfold emit at 1.
  unfold bind at 1. unfold range. rewrite <- Hlen.
  fold (show batch_images).
  rewrite (for_each_drawn batch_images images 0 (out ++ [Figure 10 10])).
  - unfold bind, emit. rewrite Hsh. rewrite <- !app_assoc. reflexivity.
  - intros j t Hj. apply (Hitems j t Hj).
Qed.

(** X12. On a batch of k < 25 images [visualize_dataset] raises the
    out-of-range error of [batch_images[k]]: by then it has drawn the k
    images there are and opened subplot k + 1, and it reaches neither the
    show nor the print. *)
Theorem visualize_dataset_too_few (batch_images : Tensor) (k : nat) (sh : list Z)
    (out : list PlotEvent) :
  shape batch_images = Z.of_nat k :: sh -> (k < 25)%nat ->
  exists images,
    length images = k /\
    (forall j t, images !! j = Some t ->
       getitem batch_images (Z.of_nat j) = Ok t /\ shape t = sh) /\
    visualize_dataset getitem astype_int batch_images out
      = (Raise InvalidArgumentError,
         out ++ [Figure 10 10] ++ drawn astype_int 0 images
             ++ [Subplot 5 5 (Z.of_nat k + 1)]).
Proof.
  intros Hsh Hk.
  destruct (items_exist batch_images (Z.of_nat k) sh k 0 Hsh ltac:(lia))
    as (images & Hlen & Hitems).
  exists images. split; [exact Hlen | split; [exact Hitems |]].
  unfold visualize_dataset. unfold bind at 1. unfold emit at 1.
  unfold bind at 1. unfold range.
  replace 25%nat with (k + S (25 - S k))%nat by lia.
  rewrite seq_app, map_app. cbn [seq map]. fold (show batch_images).
  rewrite for_each_app. unfold bind at 1. rewrite <- Hlen at 1.
  rewrite (for_each_drawn batch_images images 0 (out ++ [Figure 10 10]))
    by (intros j t Hj; apply (Hitems j t Hj)).
  cbn [for_each]. unfold bind at 1. unfold show at 1. unfold bind, emit, lift.
  rewrite (getitem_out_of_range batch_images (Z.of_nat k) sh (Z.of_nat (0 + k)) Hsh)
    by lia.
  rewrite Nat.add_0_l. rewrite <- !app_assoc. reflexivity.
Qed.

(** X13. When the source has at least 25 well-formed 3-channel examples, the
    first batch of a pipeline built by make_dataset for a supported size,
    shuffled or not, holds at least 25 images, so [visualize_dataset]
    returns on it as the visualizing cell needs. *)
Theorem first_batch_can_be_visualized (xs : list Example) (train : bool)
    (image_size : Z) (fixres : bool) (num_parallel_calls : Z)
    (ops : list DatasetOp) (g : Rng) (out : list PlotEvent) :
  image_size = 128 \/ image_size = 224 ->
  Forall (fun e => exists h w, image_object (fst e) h w 3) xs ->
  (25 <= length xs)%nat ->
  exists pipeline bs g' first,
    fst (make_dataset (Source xs) train image_size fixres num_parallel_calls ops)
      = Ok pipeline /\
    batches pipeline g = (Ok bs, g') /\
    bs !! 0%nat = Some first /\
    (25 <= length (snd first))%nat /\
    fst (visualize_dataset getitem astype_int (fst first) out) = Ok tt.
Proof.
  intros Hr Hall HN.
  destruct (batches_run xs train image_size fixres num_parallel_calls 3 g Hr Hall)
    as (ys & bs & g' & _ & Hrun & Hcount & _ & Hsizes).
  assert (Hpos : (0 < length bs)%nat).
  { rewrite Hcount.
    replace (length xs + 128 - 1)%nat with (1 * 128 + (length xs - 1))%nat by lia.
    rewrite Nat.div_add_l by lia. lia. }
  destruct (lookup_lt_is_Some_2 bs 0 Hpos) as [first Hfirst].
  destruct (Hsizes 0%nat first Hfirst) as [Hsize Hshape].
  assert (Hbig : (25 <= length (snd first))%nat).
  { rewrite Hsize. destruct (Nat.ltb_spec 1 (length bs)) as [_ | Hone]; [lia |].
    assert (Hle : (length xs <= 128)%nat).
    { rewrite Hcount in Hone.
      destruct (Nat.le_gt_cases (length xs) 128%nat) as [Hle | Hgt]; [exact Hle |].
      exfalso.
      replace (length xs + 128 - 1)%nat with (2 * 128 + (length xs - 129))%nat in Hone by lia.
      rewrite Nat.div_add_l in Hone by lia. lia. }
    unfold last_batch_size.
    destruct (Nat.eq_dec (length xs) 128%nat) as [Heq | Hne];
      [rewrite Heq; cbn; lia |].
    rewrite (Nat.mod_small (length xs) 128%nat) by lia.
    destruct (Nat.eqb_spec (length xs) 0%nat); lia. }
  eexists. exists bs, g', first.
  split; [rewrite (make_dataset_supported _ _ _ _ _ _ Hr); reflexivity |].
  split; [exact Hrun | split; [exact Hfirst | split; [exact Hbig |]]].
  destruct (visualize_dataset_draws_25 (fst first) _ _ out Hshape ltac:(lia))
    as (images & _ & _ & Hvis).
  rewrite Hvis. reflexivity.
Qed.

End Visualizing.

(** * A reference implementation of the TensorFlow interface

    Tensors are a shape with a function from indices to exact rational
    pixel values; the generator is a linear congruential one. The instance
    shows that the contracts of the interface can be met together and lets
    the pipeline be evaluated on concrete images. *)

Module Reference.

Record tensor : Type := {
  dims : list Z;
  data : list Z -> Q
}.

(* source coordinate of output index i, half-pixel centres *)
Definition source_coord (i in_size out_size : Z) : Q :=
  ((inject_Z i + (1 # 2)) * (inject_Z in_size / inject_Z out_size) - (1 # 2))%Q.

Definition lerp (a b t : Q) : Q := (a + (b - a) * t)%Q.

Definition bilinear (t : tensor) (h w h' w' : Z) (idx : list Z) : Q :=
  match idx with
  | [i; j; k] =>
      let y := source_coord i h h' in
      let x := source_coord j w w' in
      let y0 := Z.max 0 (Qfloor y) in
      let y1 := Z.min (h - 1) (Qceiling y) in
      let x0 := Z.max 0 (Qfloor x) in
      let x1 := Z.min (w - 1) (Qceiling x) in
      let ly := (y - inject_Z (Qfloor y))%Q in
      let lx := (x - inject_Z (Qfloor x))%Q in
      lerp (lerp (data t [y0; x0; k]) (data t [y0; x1; k]) lx)
           (lerp (data t [y1; x0; k]) (data t [y1; x1; k]) lx) ly
  | _ => 0%Q
  end.

Definition resize_bilinear (t : tensor) (size : list Z) : result tensor :=
  match dims t, size with
  | [h; w; c], [h'; w'] =>
      if (0 <? h) && (0 <? w) && (0 <? c) && (0 <? h') && (0 <? w') then
        Ok {| dims := [h'; w'; c]; data := bilinear t h w h' w' |}
      else Raise InvalidArgumentError
  | _, _ => Raise InvalidArgumentError
  end.

Definition slice_at (t : tensor) (begin size : list Z) : result tensor :=
  match slice_shape (dims t) begin size with
  | Some sh => Ok {| dims := sh; data := fun idx => data t (zip_with Z.add idx begin) |}
  | None => Raise InvalidArgumentError
  end.

Definition mirror (t : tensor) : tensor :=
  {| dims := dims t;
     data := fun idx =>
       match dims t, idx with
       | [_; w; _], [i; j; k] => data t [i; w - 1 - j; k]
       | _, _ => data t idx
       end |}.

Definition add_axis (t : tensor) : tensor :=
  {| dims := 1 :: dims t; data := fun idx => data t (tail idx) |}.

Definition first_item (t : tensor) : result tensor :=
  match dims t with
  | n :: sh =>
      if 0 <? n then Ok {| dims := sh; data := fun idx => data t (0 :: idx) |}
      else Raise InvalidArgumentError
  | [] => Raise InvalidArgumentError
  end.

Definition stack_all (ts : list tensor) : result tensor :=
  match ts with
  | [] => Raise InvalidArgumentError
  | t0 :: _ =>
      if forallb (fun t => bool_decide (dims t = dims t0)) ts then
        Ok {| dims := Z.of_nat (length ts) :: dims t0;
              data := fun idx =>
                match idx with
                | i :: rest =>
                    match ts !! Z.to_nat i with
                    | Some t => data t rest
                    | None => 0%Q
                    end
                | [] => 0%Q
                end |}
      else Raise InvalidArgumentError
  end.

(* the generator: x -> (1103515245 x + 12345) mod 2^31 *)
Definition next (g : Z) : Z := (1103515245 * g + 12345) mod 2147483648.

Definition lcg_uniform (g : Z) : Q * Z := (next g # 2147483648, next g).

Definition lcg_index (n : nat) (g : Z) : nat * Z :=
  (Z.to_nat (next g mod Z.of_nat n), next g).

(* Boxes of random height and width are tried until one has its area
   fraction within [lo, hi]; when none of the attempts succeeds the whole
   image is the box. *)
Fixpoint sample_attempts (attempts : nat) (h w : Z) (lo hi : Q) (g : Z)
  : (Z * Z * Z * Z) * Z :=
  match attempts with
  | O => ((0, 0, h, w), g)
  | S k =>
      let g1 := next g in
      let bh := 1 + g1 mod h in
      let g2 := next g1 in
      let bw := 1 + g2 mod w in
      let fraction := (inject_Z (bh * bw) / inject_Z (h * w))%Q in
      if Qle_bool lo fraction && Qle_bool fraction hi then
        let g3 := next g2 in
        let y := g3 mod (h - bh + 1) in
        let g4 := next g3 in
        let x := g4 mod (w - bw + 1) in
        ((y, x, bh, bw), g4)
      else sample_attempts k h w lo hi g2
  end.

Definition sample_box (image_size : list Z)
    (bounding_boxes : list BBox) (area_range : Q * Q) (min_object_covered : Q)
    (use_image_if_no_bounding_boxes : bool) (g : Z)
  : result (list Z * list Z * BBox) * Z :=
  match image_size with
  | [h; w; _] =>
      if (0 <? h) && (0 <? w)
         && (use_image_if_no_bounding_boxes
             || negb (bool_decide (length bounding_boxes = 0%nat))) then
        let '((y, x, bh, bw), g') :=
          sample_attempts 100 h w (fst area_range) (snd area_range) g in
        (Ok ([y; x; 0], [bh; bw; -1],
             ((inject_Z y / inject_Z h)%Q, (inject_Z x / inject_Z w)%Q,
              (inject_Z (y + bh) / inject_Z h)%Q,
              (inject_Z (x + bw) / inject_Z w)%Q)),
         g')
      else (Raise InvalidArgumentError, g)
  | _ => (Raise InvalidArgumentError, g)
  end.

Lemma resize_bilinear_ok (t : tensor) (h w c h' w' : Z) :
  dims t = [h; w; c] -> 0 < h -> 0 < w -> 0 < c -> 0 < h' -> 0 < w' ->
  exists t', resize_bilinear t [h'; w'] = Ok t' /\ dims t' = [h'; w'; c].
Proof.
  intros Hd Hh Hw Hc Hh' Hw'. unfold resize_bilinear. rewrite Hd.
  replace (0 <? h) with true by (symmetry; apply Z.ltb_lt; lia).
  replace (0 <? w) with true by (symmetry; apply Z.ltb_lt; lia).
  replace (0 <? c) with true by (symmetry; apply Z.ltb_lt; lia).
  replace (0 <? h') with true by (symmetry; apply Z.ltb_lt; lia).
  replace (0 <? w') with true by (symmetry; apply Z.ltb_lt; lia).
  eexists. split; reflexivity.
Qed.

Lemma resize_bilinear_empty (t : tensor) (h w c : Z) (size : list Z) :
  dims t = [h; w; c] -> h <= 0 \/ w <= 0 ->
  resize_bilinear t size = Raise InvalidArgumentError.
Proof.
  intros Hd Hhw. unfold resize_bilinear. rewrite Hd.
  destruct size as [|h' [|w' [|? ?]]]; try reflexivity.
  destruct Hhw as [Hh | Hw].
  - replace (0 <? h) with false by (symmetry; apply Z.ltb_ge; lia). reflexivity.
  - replace (0 <? w) with false by (symmetry; apply Z.ltb_ge; lia).
    rewrite andb_false_r. reflexivity.
Qed.

Lemma slice_at_ok (t : tensor) (begin size sh : list Z) :
  slice_shape (dims t) begin size = Some sh ->
  exists t', slice_at t begin size = Ok t' /\ dims t' = sh.
Proof. intros Hs. unfold slice_at. rewrite Hs. eexists. split; reflexivity. Qed.

Lemma slice_at_out_of_range (t : tensor) (begin size : list Z) :
  slice_shape (dims t) begin size = None ->
  slice_at t begin size = Raise InvalidArgumentError.
Proof. intros Hs. unfold slice_at. rewrite Hs. reflexivity. Qed.

Lemma first_item_ok (t : tensor) (n : Z) (sh : list Z) :
  dims t = n :: sh -> 0 < n ->
  exists t', first_item t = Ok t' /\ dims t' = sh.
Proof.
  intros Hd Hn. unfold first_item. rewrite Hd.
  replace (0 <? n) with true by (symmetry; apply Z.ltb_lt; lia).
  eexists. split; reflexivity.
Qed.

Lemma slice_at_add_axis (t : tensor) (begin size : list Z) :
  match slice_at (add_axis t) (0 :: begin) (-1 :: size) with
  | Ok t' => first_item t'
  | Raise e => Raise e
  end = slice_at t begin size.
Proof.
  unfold slice_at. cbn [add_axis dims slice_shape].
  change (slice_dim 1 0 (-1)) with (Some 1).
  destruct (slice_shape (dims t) begin size) as [sh|]; reflexivity.
Qed.

Lemma stack_all_ok (ts : list tensor) (sh : list Z) :
  ts <> [] -> Forall (fun t => dims t = sh) ts ->
  exists t, stack_all ts = Ok t /\ dims t = Z.of_nat (length ts) :: sh.
Proof.
  intros Hne Hall. destruct ts as [|t0 ts]; [contradiction |].
  unfold stack_all.
  assert (Hd0 : dims t0 = sh) by (inversion Hall; assumption).
  assert (Hb : forallb (fun t => bool_decide (dims t = dims t0)) (t0 :: ts) = true).
  { apply forallb_forall. intros t Ht. apply bool_decide_eq_true.
    rewrite Hd0. rewrite Forall_forall in Hall. apply Hall.
    apply list_elem_of_In. exact Ht. }
  rewrite Hb. eexists. split; [reflexivity |]. cbn [dims]. rewrite Hd0. reflexivity.
Qed.

Lemma next_range (g : Z) : 0 <= next g < 2147483648.
Proof. unfold next. apply Z.mod_pos_bound. lia. Qed.

Lemma lcg_uniform_range (g : Z) :
  (0 <= fst (lcg_uniform g))%Q /\ (fst (lcg_uniform g) < 1)%Q.
Proof.
  pose proof (next_range g) as Hg. unfold lcg_uniform. cbn [fst].
  unfold Qle, Qlt. cbn [Qnum Qden]. lia.
Qed.

Lemma lcg_index_range (n : nat) (g : Z) :
  (0 < n)%nat -> (fst (lcg_index n g) < n)%nat.
Proof.
  intros Hn. unfold lcg_index. cbn [fst].
  pose proof (Z.mod_pos_bound (next g) (Z.of_nat n) ltac:(lia)) as Hm. lia.
Qed.

Lemma sample_attempts_in_image (attempts : nat) (h w : Z) (lo hi : Q) (g : Z) :
  0 < h -> 0 < w ->
  let '((y, x, bh, bw), _) := sample_attempts attempts h w lo hi g in
  0 <= y /\ 0 <= x /\ 0 < bh /\ 0 < bw /\ y + bh <= h /\ x + bw <= w.
Proof.
  intros Hh Hw. revert g. induction attempts as [|k IH]; intros g; cbn [sample_attempts].
  - lia.
  - destruct (Qle_bool lo _ && Qle_bool _ hi); [| apply IH].
    pose proof (Z.mod_pos_bound (next g) h Hh) as Hbh.
    pose proof (Z.mod_pos_bound (next (next g)) w Hw) as Hbw.
    pose proof (Z.mod_pos_bound (next (next (next g))) (h - (1 + next g mod h) + 1)
                  ltac:(lia)) as Hy.
    pose proof (Z.mod_pos_bound (next (next (next (next g))))
                  (w - (1 + next (next g) mod w) + 1) ltac:(lia)) as Hx.
    lia.
Qed.

Lemma sample_box_ok (h w c : Z) (lo hi moc : Q) (g : Z) :
  0 < h -> 0 < w ->
  (0 < lo)%Q -> (lo <= hi)%Q -> (hi <= 1)%Q -> (0 <= moc)%Q -> (moc <= 1)%Q ->
  exists y x bh bw bb,
    fst (sample_box [h; w; c] [] (lo, hi) moc true g)
      = Ok ([y; x; 0], [bh; bw; -1], bb) /\
    0 <= y /\ 0 <= x /\ 0 < bh /\ 0 < bw /\ y + bh <= h /\ x + bw <= w.
Proof.
  intros Hh Hw _ _ _ _ _. unfold sample_box.
  replace (0 <? h) with true by (symmetry; apply Z.ltb_lt; lia).
  replace (0 <? w) with true by (symmetry; apply Z.ltb_lt; lia).
  cbn [andb orb fst snd].
  pose proof (sample_attempts_in_image 100 h w lo hi g Hh Hw) as Hbox.
  destruct (sample_attempts 100 h w lo hi g) as [[[[y x] bh] bw] g'].
  exists y, x, bh, bw. eexists. split; [reflexivity | exact Hbox].
Qed.

#[export] Instance reference : TensorFlow := {|
  Tensor := tensor;
  Rng := Z;
  shape := dims;
  resize := resize_bilinear;
  slice := slice_at;
  flip_left_right := mirror;
  expand_dims := add_axis;
  getitem0 := first_item;
  stack := stack_all;
  random_uniform := lcg_uniform;
  random_index := lcg_index;
  sample_distorted_bounding_box := sample_box;
  resize_ok := resize_bilinear_ok;
  slice_ok := slice_at_ok;
  flip_left_right_shape := fun _ => eq_refl;
  expand_dims_shape := fun _ => eq_refl;
  getitem0_ok := first_item_ok;
  slice_expand_dims := slice_at_add_axis;
  stack_ok := stack_all_ok;
  random_uniform_range := lcg_uniform_range;
  random_index_range := lcg_index_range;
  sample_distorted_bounding_box_ok := sample_box_ok
|}.

Lemma sample_attempts_area (attempts : nat) (h w : Z) (lo hi : Q) (g : Z) :
  let '((y, x, bh, bw), _) := sample_attempts attempts h w lo hi g in
  (y = 0 /\ x = 0 /\ bh = h /\ bw = w) \/
  ((lo <= area_fraction bh bw h w)%Q /\ (area_fraction bh bw h w <= hi)%Q).
Proof.
  revert g. induction attempts as [|k IH]; intros g; cbn [sample_attempts].
  - left. repeat split; reflexivity.
  - destruct (Qle_bool lo _ && Qle_bool _ hi) eqn:Hin; [| apply IH].
    apply andb_true_iff in Hin as [Hlo Hhi].
    right. split; [apply Qle_bool_iff, Hlo | apply Qle_bool_iff, Hhi].
Qed.

(* the reference sampler keeps to its area range *)
Lemma sample_box_area : @sampler_respects_area_range reference.
Proof.
  intros h w c lo hi moc g y x bh bw bb g' Hh Hw.
  cbn [sample_distorted_bounding_box reference]. unfold sample_box.
  replace (0 <? h) with true by (symmetry; apply Z.ltb_lt; lia).
  replace (0 <? w) with true by (symmetry; apply Z.ltb_lt; lia).
  cbn [andb orb fst snd].
  pose proof (sample_attempts_area 100 h w lo hi g) as Harea.
  destruct (sample_attempts 100 h w lo hi g) as [[[[y0 x0] bh0] bw0] g0].
  intros [= <- <- <- <- _ _]. exact Harea.
Qed.

End Reference.

(** * The pipeline on concrete images *)

Module Examples.

Import Reference.

(* a 300 x 400 image with 3 channels *)
Definition flower : tensor :=
  {| dims := [300; 400; 3];
     data := fun idx =>
       match idx with
       | [i; j; k] => inject_Z ((i + 2 * j + 3 * k) mod 256)
       | _ => 0%Q
       end |}.

(* a 17 x 5 image with 3 channels *)
Definition thumbnail : tensor :=
  {| dims := [17; 5; 3];
     data := fun idx =>
       match idx with
       | [i; j; k] => inject_Z ((7 * i + j + k) mod 256)
       | _ => 0%Q
       end |}.

Definition flower_obj : TensorObj :=
  {| value := flower; static_shape := [None; None; Some 3] |}.

Definition thumbnail_obj : TensorObj :=
  {| value := thumbnail; static_shape := [None; None; Some 3] |}.

Definition state0 : PpState := {| heap := [flower_obj]; rng := 2021 |}.

Definition source3 : list Example :=
  [(flower_obj, 0); (thumbnail_obj, 4); (flower_obj, 2)].

(* shape and label of what a preprocessing call returns *)
Definition outcome (r : result (addr * Label) * PpState)
  : result (option (list Z) * Label) :=
  match r with
  | (Ok (a, y), s) => Ok (option_map (fun o => dims (value o)) (heap s !! a), y)
  | (Raise e, _) => Raise e
  end.

Definition batch_shapes (r : result (list BatchT) * Z)
  : result (list (list Z * list Label)) :=
  match fst r with
  | Ok bs => Ok (map (fun b => (dims (fst b), snd b)) bs)
  | Raise e => Raise e
  end.

Lemma flower_image : image_object flower_obj 300 400 3.
Proof. repeat split; reflexivity. Qed.

Lemma thumbnail_image : image_object thumbnail_obj 17 5 3.
Proof. repeat split; reflexivity. Qed.

Lemma source3_images :
  Forall (fun e => exists h w, image_object (fst e) h w 3) source3.
Proof.
  repeat constructor; cbn [fst].
  - exists 300, 400. exact flower_image.
  - exists 17, 5. exact thumbnail_image.
  - exists 300, 400. exact flower_image.
Qed.

Example small_eval_shape :
  outcome (preprocess_func false 128 true 0%nat 3 false state0)
    = Ok (Some [128; 128; 3], 3).
Proof. vm_compute. reflexivity. Qed.

Example small_train_shape :
  outcome (preprocess_func true 128 false 0%nat 3 true state0)
    = Ok (Some [128; 128; 3], 3).
Proof. vm_compute. reflexivity. Qed.

Example finetune_train_shape :
  outcome (preprocess_func true 224 true 0%nat 1 true state0)
    = Ok (Some [224; 224; 3], 1).
Proof. vm_compute. reflexivity. Qed.

Example vanilla_eval_shape :
  outcome (preprocess_func false 224 false 0%nat 1 false state0)
    = Ok (Some [224; 224; 3], 1).
Proof. vm_compute. reflexivity. Qed.

Example unsupported_100 :
  make_dataset (Source source3) true 100 true auto [] = (Raise (ValueError 100), []).
Proof. reflexivity. Qed.

Example operations_created :
  snd (make_dataset (Source source3) true 224 true auto [])
    = [ShuffleOp 1280; MapOp (-1); BatchOp 128; PrefetchOp (-1)].
Proof. reflexivity. Qed.

Example one_batch_of_three :
  match fst (make_dataset (Source source3) false 224 true auto []) with
  | Ok pipeline => batch_shapes (batches pipeline 7)
  | Raise e => Raise e
  end = Ok [([3; 224; 224; 3], [0; 4; 2])].
Proof. vm_compute. reflexivity. Qed.

Example batches_of_five_by_two :
  map (@length nat) (batch_elements 2 [] [1; 2; 3; 4; 5]%nat) = [2; 2; 1]%nat.
Proof. reflexivity. Qed.

(* a box drawn for the area range [0.05, 1.0]: 67 x 268 of 300 x 400 *)
Example sampled_box_of_flower :
  match fst (sample_box [300; 400; 3] [] ((5 # 100)%Q, 1%Q) 0%Q true 2021) with
  | Ok (begin, size, _) => Some (begin, size)
  | Raise _ => None
  end = Some ([128; 51; 0], [67; 268; -1]).
Proof. vm_compute. reflexivity. Qed.

(* no box found within [0.999, 1.0]: the whole image *)
Example sampler_falls_back :
  match fst (sample_box [300; 400; 3] [] ((999 # 1000)%Q, 1%Q) 0%Q true 2021) with
  | Ok (begin, size, _) => Some (begin, size)
  | Raise _ => None
  end = Some ([0; 0; 0], [300; 400; -1]).
Proof. vm_compute. reflexivity. Qed.

(* an empty image makes the resize fail *)
Example empty_image_raises :
  fst (preprocess_func false 128 true 0%nat 0 false
         {| heap := [{| value := {| dims := [0; 400; 3]; data := fun _ => 0%Q |};
                        static_shape := [None; None; Some 3] |}];
            rng := 0 |})
    = Raise InvalidArgumentError.
Proof. reflexivity. Qed.

End Examples.

(** * The theorems at concrete inputs *)

Module Witnesses.

Import Reference Examples.

Lemma preprocess_output_shape_witness :
  exists image' label' s' o',
    preprocess_func true 128 true 0%nat 3 true state0 = (Ok (image', label'), s') /\
    heap s' !! image' = Some o' /\
    shape (value o') = [128; 128; 3].
Proof.
  apply (preprocess_output_shape 128 true true 0%nat 3 state0 flower_obj 300 400);
    [left; reflexivity | reflexivity | repeat split; reflexivity].
Defined.

Lemma make_dataset_unsupported_witness :
  make_dataset (Source source3) true 100 true auto []
    = (Raise (ValueError 100), []).
Proof.
  apply (make_dataset_unsupported (Source source3) true 100 true auto []); lia.
Defined.

Lemma finetune_eval_deterministic_witness :
  exists resized out,
    resize (value flower_obj) [392; 392] = Ok resized /\
    center_crop 224 224 resized = Ok out /\
    forall (image : addr) (label : Label) (s : PpState),
      heap s !! image = Some flower_obj ->
      finetune_strategy false (value flower_obj) (rng s) = (Ok out, rng s) /\
      exists image' s' o',
        preprocess_func false bigger_size true image label false s
          = (Ok (image', label), s') /\
        heap s' !! image' = Some o' /\ value o' = out /\ rng s' = rng s.
Proof.
  apply (finetune_eval_deterministic flower_obj 300 400 3).
  repeat split; reflexivity.
Defined.

Lemma finetune_train_flip_only_witness :
  exists resized plain mirrored,
    resize (value thumbnail_obj) [392; 392] = Ok resized /\
    center_crop 224 224 resized = Ok plain /\
    center_crop 224 224 (flip_left_right resized) = Ok mirrored /\
    shape plain = [224; 224; 3] /\ shape mirrored = [224; 224; 3] /\
    forall (image : addr) (label : Label) (s : PpState),
      heap s !! image = Some thumbnail_obj ->
      let out := if Qltb (fst (random_uniform (rng s))) (1 # 2)
                 then mirrored else plain in
      finetune_strategy true (value thumbnail_obj) (rng s)
        = (Ok out, snd (random_uniform (rng s))) /\
      exists image' s' o',
        preprocess_func true bigger_size true image label true s
          = (Ok (image', label), s') /\
        heap s' !! image' = Some o' /\
        value o' = out /\
        rng s' = snd (random_uniform (rng s)).
Proof.
  apply (finetune_train_flip_only thumbnail_obj 17 5 3).
  repeat split; reflexivity.
Defined.



Lemma make_dataset_batches_witness :
  exists pipeline ops' bs g',
    make_dataset (Source source3) true 224 true auto [] = (Ok pipeline, ops') /\
    batches pipeline 7 = (Ok bs, g') /\
    Z.of_nat (length bs) = Qceiling (Z.of_nat (length source3) # 128) /\
    forall i b, bs !! i = Some b ->
      length (snd b) =
        (if S i <? length bs then 128
         else if length source3 mod 128 =? 0 then 128 else length source3 mod 128)%nat /\
      shape (fst b) = [Z.of_nat (length (snd b)); 224; 224; 3].
Proof.
  apply (make_dataset_batches source3 true 224 true auto [] 7); [right; reflexivity |].
  constructor; [exists 300, 400; repeat split; reflexivity |].
  constructor; [exists 17, 5; repeat split; reflexivity |].
  constructor; [exists 300, 400; repeat split; reflexivity |].
  constructor.
Defined.

Lemma preprocess_keeps_label_and_input_witness :
  let r := preprocess_func true 224 true 0%nat 3 true state0 in
  (forall image' label', fst r = Ok (image', label') -> label' = 3) /\
  heap state0 `prefix_of` heap (snd r) /\
  (forall a o, heap state0 !! a = Some o -> heap (snd r) !! a = Some o).
Proof.
  exact (preprocess_keeps_label_and_input true 224 true 0%nat 3 state0).
Defined.

End Witnesses.

(** * The further properties at concrete inputs *)

Module Indexing.

Import Reference.

(* t[n] for n >= 0 *)
Definition item_at (t : tensor) (n : Z) : result tensor :=
  match dims t with
  | d :: sh =>
      if (0 <=? n) && (n <? d) then
        Ok {| dims := sh; data := fun idx => data t (n :: idx) |}
      else Raise InvalidArgumentError
  | [] => Raise InvalidArgumentError
  end.

(* astype("int") truncates toward zero *)
Definition to_int (t : tensor) : tensor :=
  {| dims := dims t;
     data := fun idx =>
       let x := data t idx in
       inject_Z (if Qle_bool 0 x then Qfloor x else Qceiling x) |}.

Lemma item_at_ok (t : tensor) (d : Z) (sh : list Z) (n : Z) :
  dims t = d :: sh -> 0 <= n < d ->
  exists t', item_at t n = Ok t' /\ dims t' = sh.
Proof.
  intros Hd Hn. unfold item_at. rewrite Hd.
  replace (0 <=? n) with true by (symmetry; apply Z.leb_le; lia).
  replace (n <? d) with true by (symmetry; apply Z.ltb_lt; lia).
  eexists. split; reflexivity.
Qed.

Lemma item_at_out_of_range (t : tensor) (d : Z) (sh : list Z) (n : Z) :
  dims t = d :: sh -> d <= n ->
  item_at t n = Raise InvalidArgumentError.
Proof.
  intros Hd Hn. unfold item_at. rewrite Hd.
  replace (n <? d) with false by (symmetry; apply Z.ltb_ge; lia).
  rewrite andb_false_r. reflexivity.
Qed.

End Indexing.

Module MoreWitnesses.

Import Reference Examples Indexing.

Definition state1 : PpState := {| heap := [flower_obj]; rng := 99 |}.

Definition batch_of (k : Z) : tensor :=
  {| dims := [k; 128; 128; 3];
     data := fun idx =>
       match idx with
       | [n; i; j; c] => inject_Z ((n + i + j + c) mod 256)
       | _ => 0%Q
       end |}.

Definition source25 : list Example := replicate 25 (flower_obj, 1).

Definition conv1 : Layer := {| name := "conv1_conv"; trainable := true |}.
Definition post_bn : Layer := {| name := "post_bn"; trainable := true |}.
Definition post_relu : Layer := {| name := "post_relu"; trainable := true |}.

Definition plain (layer_name : string) : Block :=
  {| block := {| name := layer_name; trainable := true |}; sublayers := None |}.

Definition resnet : Block :=
  {| block := {| name := "resnet50v2"; trainable := true |};
     sublayers := Some [conv1; post_bn; post_relu] |}.

Definition headless : Block :=
  {| block := {| name := "resnet50v2"; trainable := true |};
     sublayers := Some [conv1; post_relu] |}.

Definition model4 : list Block :=
  [plain "input_1"; plain "rescaling"; resnet; plain "dense"].

Definition model_without_post_bn : list Block :=
  [plain "input_1"; plain "rescaling"; headless; plain "dense"].

Example freeze_model4 :
  freeze_for_finetuning model4
    = (inr tt,
       [plain "input_1"; plain "rescaling";
        {| block := {| name := "resnet50v2"; trainable := true |};
           sublayers := Some [set_trainable false conv1; post_bn;
                              set_trainable false post_relu] |};
        plain "dense"]).
Proof. reflexivity. Qed.

Lemma make_dataset_succeeds_iff_witness :
  snd (make_dataset (Source source3) true 224 false auto [])
    = [] ++ [ShuffleOp 1280] ++ [MapOp auto; BatchOp 128; PrefetchOp auto].
Proof.
  apply (proj2 (make_dataset_succeeds_iff (Source source3) true 224 false auto [])).
  right. reflexivity.
Defined.

Lemma eval_pipeline_labels_in_order_witness :
  exists pipeline bs g',
    fst (make_dataset (Source source3) false 224 true auto []) = Ok pipeline /\
    batches pipeline 7 = (Ok bs, g') /\
    map snd bs = batch_elements 128 [] (map snd source3) /\
    concat (map snd bs) = map snd source3 /\
    Forall (fun b => shape (fst b) = [Z.of_nat (length (snd b)); 224; 224; 3]) bs.
Proof.
  apply (eval_pipeline_labels_in_order source3 224 true auto [] 7);
    [right; reflexivity |].
  constructor; [exists 300, 400; repeat split; reflexivity |].
  constructor; [exists 17, 5; repeat split; reflexivity |].
  constructor; [exists 300, 400; repeat split; reflexivity |].
  constructor.
Defined.

Lemma train_pipeline_labels_permuted_witness :
  exists pipeline bs g',
    fst (make_dataset (Source source3) true 128 true auto []) = Ok pipeline /\
    batches pipeline 7 = (Ok bs, g') /\
    concat (map snd bs) ≡ₚ map snd source3.
Proof.
  apply (train_pipeline_labels_permuted source3 128 true auto [] 7);
    [left; reflexivity |].
  constructor; [exists 300, 400; repeat split; reflexivity |].
  constructor; [exists 17, 5; repeat split; reflexivity |].
  constructor; [exists 300, 400; repeat split; reflexivity |].
  constructor.
Defined.

Lemma eval_preprocessing_ignores_generator_witness :
  let run := preprocess_func true 224 true 0%nat 3 false in
  fst (run state0) = fst (run state1) /\
  heap (snd (run state0)) = heap (snd (run state1)) /\
  rng (snd (run state0)) = rng state0 /\ rng (snd (run state1)) = rng state1.
Proof.
  apply (eval_preprocessing_ignores_generator true 224 true 0%nat 3 state0 state1).
  reflexivity.
Defined.

Lemma eval_pipeline_deterministic_witness :
  exists pipeline,
    fst (make_dataset (Source source3) false 128 false auto []) = Ok pipeline /\
    forall g1 g2,
      fst (batches pipeline g1) = fst (batches pipeline g2) /\
      snd (batches pipeline g1) = g1.
Proof.
  apply (eval_pipeline_deterministic source3 128 false auto []).
  left. reflexivity.
Defined.

Lemma preprocess_returns_new_object_witness :
  heap state0 !! 1%nat = None /\ (is_Some (heap state0 !! 0%nat) -> 1%nat <> 0%nat).
Proof.
  apply (preprocess_returns_new_object false 128 true 0%nat 3 false state0 1%nat 3).
  vm_compute. reflexivity.
Defined.

Lemma _pp_static_shape_witness :
  exists image' s' o',
    preprocess_initial true 128 0%nat 3 true state0 = (Ok (image', 3), s') /\
    heap s' !! image' = Some o' /\
    static_shape o' = [Some 128; Some 128; Some 3].
Proof.
  apply (_pp_static_shape 128 0%nat 3 true state0 flower_obj 300 400 3 (Some 3));
    [reflexivity | repeat split; reflexivity | reflexivity | reflexivity].
Defined.

Lemma validation_datasets_agree_witness :
  exists ds initial finetune vanilla,
    fst (prepare_datasets (Source source25) (Source source3) []) = Ok ds /\
    fst (batches (initial_val_dataset ds) 7) = Ok initial /\
    fst (batches (finetune_val_dataset ds) 7) = Ok finetune /\
    fst (batches (vanilla_val_dataset ds) 7) = Ok vanilla /\
    map snd initial = batch_elements 128 [] (map snd source3) /\
    map snd finetune = map snd initial /\
    map snd vanilla = map snd initial /\
    Forall (fun b => shape (fst b) = [Z.of_nat (length (snd b)); 128; 128; 3]) initial /\
    Forall (fun b => shape (fst b) = [Z.of_nat (length (snd b)); 224; 224; 3]) finetune /\
    Forall (fun b => shape (fst b) = [Z.of_nat (length (snd b)); 224; 224; 3]) vanilla.
Proof.
  apply (validation_datasets_agree (Source source25) source3 [] 7).
  constructor; [exists 300, 400; repeat split; reflexivity |].
  constructor; [exists 17, 5; repeat split; reflexivity |].
  constructor; [exists 300, 400; repeat split; reflexivity |].
  constructor.
Defined.

Lemma freeze_leaves_only_post_bn_witness :
  exists frozen,
    freeze_for_finetuning model4
      = (inr tt,
         <[2%nat := {| block := block resnet; sublayers := Some frozen |}]> model4) /\
    length frozen = length [conv1; post_bn; post_relu] /\
    (forall j l, [conv1; post_bn; post_relu] !! j = Some l ->
       frozen !! j = Some {| name := name l; trainable := bool_decide (j = 1%nat) |}) /\
    (exists l, [conv1; post_bn; post_relu] !! 1%nat = Some l
               /\ name l = "post_bn"%string) /\
    (forall j, j <> 2%nat ->
       <[2%nat := {| block := block resnet; sublayers := Some frozen |}]> model4 !! j
         = model4 !! j).
Proof.
  apply (freeze_leaves_only_post_bn model4 resnet [conv1; post_bn; post_relu] 1);
    reflexivity.
Defined.

Definition model_with_plain_third_layer : list Block :=
  [plain "input_1"; plain "rescaling"; plain "dense"].

Lemma freeze_failures_witness :
  freeze_for_finetuning [plain "input_1"; plain "rescaling"]
    = (inl IndexError, [plain "input_1"; plain "rescaling"]) /\
  freeze_for_finetuning model_with_plain_third_layer
    = (inl AttributeError, model_with_plain_third_layer) /\
  freeze_for_finetuning model_without_post_bn
    = (inl (NoSuchLayer "post_bn"),
       <[2%nat := {| block := block headless;
                     sublayers := Some (map (set_trainable false) [conv1; post_relu]) |}]>
         model_without_post_bn).
Proof.
  split; [| split].
  - apply (proj1 (freeze_failures [plain "input_1"; plain "rescaling"])). reflexivity.
  - apply (proj1 (proj2 (freeze_failures model_with_plain_third_layer)) (plain "dense"));
      reflexivity.
  - apply (proj1 (proj2 (proj2 (freeze_failures model_without_post_bn)))
             headless [conv1; post_relu]); [reflexivity | reflexivity |].
    constructor; [discriminate |]. constructor; [discriminate |]. constructor.
Defined.

Lemma visualize_dataset_draws_25_witness :
  exists images,
    length images = 25%nat /\
    (forall j t, images !! j = Some t ->
       item_at (batch_of 128) (Z.of_nat j) = Ok t /\ shape t = [128; 128; 3]) /\
    visualize_dataset (TF := reference) item_at to_int (batch_of 128) []
      = (Ok tt,
         [] ++ [Figure 10 10] ++ drawn (TF := reference) to_int 0 images
            ++ [Show; Print [128; 128; 128; 3]]).
Proof.
  apply (visualize_dataset_draws_25 (TF := reference) item_at to_int item_at_ok
           (batch_of 128) 128 [128; 128; 3] []); [reflexivity | lia].
Defined.

Lemma visualize_dataset_too_few_witness :
  exists images,
    length images = 3%nat /\
    (forall j t, images !! j = Some t ->
       item_at (batch_of 3) (Z.of_nat j) = Ok t /\ shape t = [128; 128; 3]) /\
    visualize_dataset (TF := reference) item_at to_int (batch_of 3) []
      = (Raise InvalidArgumentError,
         [] ++ [Figure 10 10] ++ drawn (TF := reference) to_int 0 images
            ++ [Subplot 5 5 (Z.of_nat 3 + 1)]).
Proof.
  apply (visualize_dataset_too_few (TF := reference) item_at to_int item_at_ok item_at_out_of_range
           (batch_of 3) 3 [128; 128; 3] []); [reflexivity | lia].
Defined.

Lemma first_batch_can_be_visualized_witness :
  exists pipeline bs g' first,
    fst (make_dataset (Source source25) true 128 true auto []) = Ok pipeline /\
    batches pipeline 7 = (Ok bs, g') /\
    bs !! 0%nat = Some first /\
    (25 <= length (snd first))%nat /\
    fst (visualize_dataset (TF := reference) item_at to_int (fst first) []) = Ok tt.
Proof.
  apply (first_batch_can_be_visualized (TF := reference) item_at to_int item_at_ok
           source25 true 128 true auto [] 7 []).
  - left. reflexivity.
  - apply Forall_replicate. exists 300, 400. repeat split; reflexivity.
  - vm_compute. lia.
Defined.

End MoreWitnesses.
